(** * FIL Live Desktop: the renderer's feed, buffer and metrics logic

    A shallow embedding of [renderer.js].  The module-level [let] variables of
    the script ([lastPrice], [priceBuffer], [lastAlertTs], [cachedQty]) are
    threaded explicitly; the user settings and internal constants are read
    from a [config] record whose default carries the values written in the
    script; [Date.now()] and the outcome of every network request are
    arguments of the function that reads them.

    JavaScript numbers are IEEE 754 binary64 values: they are embedded as
    Rocq's primitive floats, so [+], [-], [*], [/] and the comparisons are the
    operations the script executes, rounding, infinities and NaN included. *)

From Stdlib Require Import ZArith String Ascii List Floats Lia Bool.
Import ListNotations.

Set Warnings "-inexact-float".

(** ** JavaScript numbers, strings and values *)

Module JS.

Definition number := float.

Definition NaN : number := nan.

(** [Number.isFinite(x)] for an [x] that is a Number. *)
Definition isFinite (x : number) : bool := is_finite x.

(** [a >= b], [a <= b], [a > b], [a < b] and [a === b] on Numbers: false as
    soon as one side is NaN; [===] identifies [+0] and [-0]. *)
Definition ge (a b : number) : bool := (b <=? a)%float.
Definition le (a b : number) : bool := (a <=? b)%float.
Definition gt (a b : number) : bool := (b <? a)%float.
Definition lt (a b : number) : bool := (a <? b)%float.
Definition strict_eq (a b : number) : bool := (a =? b)%float.

(** The binary64 values that are neither NaN nor infinite, on the side of
    their specification. *)
Inductive finite_SF : spec_float -> Prop :=
| finite_zero s : finite_SF (S754_zero s)
| finite_nonzero s m e : finite_SF (S754_finite s m e).

(** *** Strings

    Strings are sequences of one-byte characters; the scripts' texts that
    matter here (digit strings, field names, numeric literals) are ASCII. *)

Definition code (c : ascii) : nat := nat_of_ascii c.

Definition is_digit (c : ascii) : bool :=
  (48 <=? code c)%nat && (code c <=? 57)%nat.

(** The ASCII members of [StrWhiteSpaceChar]: TAB, LF, VT, FF, CR, SP. *)
Definition is_space (c : ascii) : bool :=
  ((9 <=? code c)%nat && (code c <=? 13)%nat) || (code c =? 32)%nat.

Fixpoint all_chars (f : ascii -> bool) (s : string) : bool :=
  match s with
  | EmptyString => true
  | String c r => f c && all_chars f r
  end.

(** The characters of a literal made of digits and a point, and the
    characters that are not white space. *)
Definition is_lit (c : ascii) : bool := is_digit c || (c =? ".")%char.
Definition not_space (c : ascii) : bool := negb (is_space c).
Definition is_zero_digit (c : ascii) : bool := (c =? "0")%char.

Definition is_empty (s : string) : bool :=
  match s with EmptyString => true | _ => false end.

Fixpoint trim_left (s : string) : string :=
  match s with
  | String c r => if is_space c then trim_left r else s
  | EmptyString => EmptyString
  end.

Fixpoint trim_right (s : string) : string :=
  match s with
  | EmptyString => EmptyString
  | String c r =>
      let r' := trim_right r in
      if is_space c && is_empty r' then EmptyString else String c r'
  end.

(** [s.trim()]. *)
Definition trim (s : string) : string := trim_right (trim_left s).

Fixpoint repeat_char (c : ascii) (n : nat) : string :=
  match n with
  | O => EmptyString
  | S k => String c (repeat_char c k)
  end.

(** [s.padStart(n, c)] for a one-character filler [c]. *)
Definition padStart (n : nat) (c : ascii) (s : string) : string :=
  (repeat_char c (n - String.length s) ++ s)%string.

(** *** Rounding a rational to binary64

    [round_ratio neg n d] is the binary64 value nearest to [n / d] (ties to
    even), negated when [neg]: the quotient is developed to at least 53 bits
    with the position of the remainder, then rounded once. *)
Definition round_ratio (neg : bool) (n d : positive) : number :=
  let '(m, e, l) := SFdiv_core_binary prec emax (Zpos n) 0 (Zpos d) 0 in
  SF2Prim (binary_round_aux prec emax neg m e l).

(** The Number nearest to [m * 10 ^ e], for a mantissa [m >= 0]. *)
Definition of_scaled (neg : bool) (m e : Z) : number :=
  match m with
  | Zpos n =>
      match e with
      | Z0 => round_ratio neg n 1
      | Zpos k => round_ratio neg (n * Pos.pow 10 k) 1
      | Zneg k => round_ratio neg n (Pos.pow 10 k)
      end
  | _ => if neg then (-0)%float else 0%float
  end.

(** *** [StringToNumber]: the Number a string denotes ([Number(s)]) *)

Definition digit_val (c : ascii) : Z := (Z.of_nat (code c) - 48)%Z.

(** The integer written by a string of decimal digits (0 for the empty one). *)
Fixpoint digits_acc (acc : Z) (s : string) : Z :=
  match s with
  | EmptyString => acc
  | String c r => digits_acc (10 * acc + digit_val c)%Z r
  end.

Definition digits_value (s : string) : Z := digits_acc 0%Z s.

(** The longest prefix of digits, and what follows it. *)
Fixpoint span_digits (s : string) : string * string :=
  match s with
  | String c r =>
      if is_digit c
      then let (d, rest) := span_digits r in (String c d, rest)
      else (EmptyString, s)
  | EmptyString => (EmptyString, EmptyString)
  end.

(** The digit a character stands for in a radix up to 16. *)
Definition radix_digit (c : ascii) : option Z :=
  let n := code c in
  if is_digit c then Some (Z.of_nat n - 48)%Z
  else if (97 <=? n)%nat && (n <=? 102)%nat then Some (Z.of_nat n - 87)%Z
  else if (65 <=? n)%nat && (n <=? 70)%nat then Some (Z.of_nat n - 55)%Z
  else None.

Fixpoint radix_acc (b acc : Z) (s : string) : option Z :=
  match s with
  | EmptyString => Some acc
  | String c r =>
      match radix_digit c with
      | Some d => if (d <? b)%Z then radix_acc b (b * acc + d)%Z r else None
      | None => None
      end
  end.

(** [NonDecimalIntegerLiteral]: [0x], [0o] or [0b] (either case) followed by
    at least one digit of the radix. *)
Definition parse_radix (s : string) : option Z :=
  match s with
  | String z (String c r) =>
      let b :=
        if (c =? "x")%char || (c =? "X")%char then Some 16%Z
        else if (c =? "o")%char || (c =? "O")%char then Some 8%Z
        else if (c =? "b")%char || (c =? "B")%char then Some 2%Z
        else None in
      match b with
      | Some b =>
          if (z =? "0")%char && negb (is_empty r) then radix_acc b 0%Z r
          else None
      | None => None
      end
  | _ => None
  end.

(** An optional sign, and what follows it. *)
Definition split_sign (s : string) : bool * string :=
  match s with
  | String c r =>
      if (c =? "+")%char then (false, r)
      else if (c =? "-")%char then (true, r)
      else (false, s)
  | EmptyString => (false, s)
  end.

(** [ExponentPart_opt] at the end of a literal: nothing, or [e]/[E], an
    optional sign and at least one digit.  The result is the exponent. *)
Definition parse_exponent (s : string) : option Z :=
  match s with
  | EmptyString => Some 0%Z
  | String c r =>
      if (c =? "e")%char || (c =? "E")%char then
        let '(neg, ds) := split_sign r in
        if negb (is_empty ds) && all_chars is_digit ds
        then Some (if neg then - digits_value ds else digits_value ds)%Z
        else None
      else None
  end.

(** [StrUnsignedDecimalLiteral] other than [Infinity]: digits, an optional
    fraction, an optional exponent, with a digit before or after the point.
    The result [(m, e)] stands for [m * 10 ^ e]. *)
Definition parse_unsigned_decimal (u : string) : option (Z * Z) :=
  let (ip, r1) := span_digits u in
  let (fp, r2) :=
    match r1 with
    | String c r => if (c =? ".")%char then span_digits r else (EmptyString, r1)
    | EmptyString => (EmptyString, r1)
    end in
  if is_empty ip && is_empty fp then None
  else
    match parse_exponent r2 with
    | Some e =>
        Some (digits_value (ip ++ fp)%string, (e - Z.of_nat (String.length fp))%Z)
    | None => None
    end.

(** [StringToNumber]: white space is trimmed; the empty string is [+0]; a
    string that is not a [StrNumericLiteral] is NaN; the mathematical value
    of a literal is rounded to the nearest Number, ties to even, whatever
    the count of its digits (the standard lets an engine stop at the 20th
    significant digit; the engines round the exact value). *)
Definition StringToNumber (s : string) : number :=
  let t := trim s in
  if is_empty t then 0%float
  else
    match parse_radix t with
    | Some n => of_scaled false n 0%Z
    | None =>
        let '(neg, u) := split_sign t in
        if (u =? "Infinity")%string
        then (if neg then neg_infinity else infinity)
        else
          match parse_unsigned_decimal u with
          | Some (m, e) => of_scaled neg m e
          | None => NaN
          end
    end.

(** *** Values

    The values [JSON.parse] produces, and [undefined]. *)
#[warnings="-register-all"]
Inductive value :=
| Undefined
| Null
| Bool (b : bool)
| Num (x : number)
| Str (s : string)
| Arr (items : list value)
| Obj (fields : list (string * value)).

(** [ToBoolean]: what [if (v)], [a && b], [a || b] and [filter(Boolean)] test. *)
Definition ToBoolean (v : value) : bool :=
  match v with
  | Undefined | Null => false
  | Bool b => b
  | Num x => negb (is_nan x || (x =? 0)%float)
  | Str s => negb (is_empty s)
  | Arr _ | Obj _ => true
  end.

(** [Number(v)].  An array converts through its [join(",")]: the empty array
    and [[null]] give the empty string, a one-element array the text of its
    element (a Number prints to a text that reads back as itself, [-0] as
    [0]), two elements or more a text with a comma, which is no literal; a
    plain object prints as [[object Object]]. *)
Fixpoint ToNumber (v : value) : number :=
  match v with
  | Undefined => NaN
  | Null => 0%float
  | Bool b => if b then 1%float else 0%float
  | Num x => x
  | Str s => StringToNumber s
  | Arr [] => 0%float
  | Arr [x] =>
      match x with
      | Undefined | Null => 0%float
      | Bool _ => NaN
      | Num n => if (n =? 0)%float then 0%float else n
      | Str s => StringToNumber s
      | Arr _ => ToNumber x
      | Obj _ => NaN
      end
  | Arr _ => NaN
  | Obj _ => NaN
  end.

(** [v == null]. *)
Definition is_nullish (v : value) : bool :=
  match v with Undefined | Null => true | _ => false end.

(** [a || b] on values. *)
Definition or_else (a b : value) : value := if ToBoolean a then a else b.

(** The own property [k] of a plain object, [undefined] when it has none;
    [fields] lists each name once. *)
Fixpoint lookup (k : string) (fields : list (string * value)) : value :=
  match fields with
  | [] => Undefined
  | (k', v) :: rest => if (k =? k')%string then v else lookup k rest
  end.

(** [v.k] for a name [k] that is neither inherited nor an index nor
    [length] (the handlers read [type], [product_id], [price] and [c]):
    [None] is the TypeError of reading a property of [null] or [undefined]. *)
Definition getField (v : value) (k : string) : option value :=
  match v with
  | Undefined | Null => None
  | Obj fields => Some (lookup k fields)
  | _ => Some Undefined
  end.

(** [v[0]] for a [v] that is not [null] or [undefined]: the first element of
    an array, the first character of a string, the property ["0"] of an
    object. *)
Definition getFirst (v : value) : value :=
  match v with
  | Arr items => nth 0 items Undefined
  | Str (String c _) => Str (String c EmptyString)
  | Obj fields => lookup "0" fields
  | _ => Undefined
  end.

End JS.

Import JS.

(** ** User settings and internal constants *)

(** One entry of [FIL_LOTS]: a missing field reads as [undefined]. *)
Record lot_entry := LotEntry {
  entry_price : value;
  entry_qty : value;
  entry_usd : value;
  entry_ts : value }.

Record config := Config {
  USE_EXODUS_BALANCE : bool;
  FIL_ADDRESSES : list string;
  PRICE_SOURCE : string;
  FIL_LOTS : list lot_entry;
  ENABLE_ALERTS : bool;
  ALERT_WEBHOOK : string;
  SL_PRICE : number;
  TP_PRICE : number;
  ALERT_COOLDOWN_MIN : number;
  BUF_MAX_POINTS : nat }.

(** The settings as the script writes them. *)
Definition default_config : config := {|
  USE_EXODUS_BALANCE := true;
  FIL_ADDRESSES := ["f16xgionxc7iowpdlqjjmlx6omzutyqzrwl4k4lti"%string];
  PRICE_SOURCE := "coinbase"%string;
  FIL_LOTS :=
    [ {| entry_price := Num 2.481420365016936%float;
         entry_qty := Undefined;
         entry_usd := Num 100%float;
         entry_ts := Str "2025-09-09" |} ];
  ENABLE_ALERTS := true;
  ALERT_WEBHOOK := EmptyString;
  SL_PRICE := 2%float;
  TP_PRICE := 3.5%float;
  ALERT_COOLDOWN_MIN := 60%float;
  BUF_MAX_POINTS := 600 |}.

(** ** Formatting helpers

    [toFixed] is not unfolded: a formatted number is kept as the number and
    the count of decimals asked for; the dash is the text shown for a value
    that is not finite. *)
Inductive text :=
| Dash
| Fixed (digits : nat) (x : number)
| Percent (plus : bool) (x : number).

Definition fmt2 (n : number) : text := if isFinite n then Fixed 2 n else Dash.
Definition fmt6 (n : number) : text := if isFinite n then Fixed 6 n else Dash.
Definition fmtFIL (n : number) : text := if isFinite n then Fixed 4 n else Dash.
Definition fmtPct (n : number) : text :=
  if isFinite n then Percent (ge n 0%float) n else Dash.

(** ** Sample buffer *)

Module Sample.
(** One element [{t, p}] of [priceBuffer]. *)
Record sample := make { t : number; p : number }.
End Sample.

Abbreviation sample := Sample.sample.

(** [pushPrice(t, p)]: [push], then [splice(0, length - cap)] when the length
    exceeds the capacity [cap] (the constant [BUF_MAX_POINTS]).
    [splice(0, k)] deletes the first [k] elements. *)
Definition pushPrice (cap : nat) (priceBuffer : list sample) (t p : number)
  : list sample :=
  let pushed := priceBuffer ++ [Sample.make t p] in
  if (cap <? length pushed)%nat
  then skipn (length pushed - cap) pushed
  else pushed.

(** The loop of [pctChangeSinceMs]: the first element whose [t] is at least
    [cutoff], or [ref] as it stood before the loop. *)
Fixpoint first_since (cutoff : number) (buf : list sample) (ref : sample)
  : sample :=
  match buf with
  | [] => ref
  | x :: rest =>
      if ge (Sample.t x) cutoff then x else first_since cutoff rest ref
  end.

(** [pctChangeSinceMs(ms)], with [now] the value of [Date.now()]. *)
Definition pctChangeSinceMs (now : number) (priceBuffer : list sample)
  (ms : number) : number :=
  match priceBuffer with
  | [] => NaN
  | first :: _ =>
      let cutoff := (now - ms)%float in
      let ref := first_since cutoff priceBuffer first in
      let last := List.last priceBuffer first in
      if negb (isFinite (Sample.p ref)) || negb (isFinite (Sample.p last))
         || strict_eq (Sample.p ref) 0%float
      then NaN
      else (((Sample.p last - Sample.p ref) / Sample.p ref) * 100)%float
  end.

(** [minMaxSinceMs(ms)]: the pair [(hi, lo)]. *)
Definition minMaxSinceMs (now : number) (priceBuffer : list sample)
  (ms : number) : number * number :=
  match priceBuffer with
  | [] => (NaN, NaN)
  | _ =>
      let cutoff := (now - ms)%float in
      let window := filter (fun x => ge (Sample.t x) cutoff) priceBuffer in
      let arr := match window with [] => priceBuffer | _ => window end in
      fold_left
        (fun '(hi, lo) x =>
           if isFinite (Sample.p x)
           then (if gt (Sample.p x) hi then Sample.p x else hi,
                 if lt (Sample.p x) lo then Sample.p x else lo)
           else (hi, lo))
        arr (neg_infinity, infinity)
  end.

(** A run of [pushPrice] calls, one per element of [xs], oldest first. *)
Definition pushAll (cap : nat) (priceBuffer : list sample) (xs : list sample)
  : list sample :=
  fold_left (fun b x => pushPrice cap b (Sample.t x) (Sample.p x)) xs priceBuffer.

(** The most recent [n] elements of a sequence, in order. *)
Definition lastn {A} (n : nat) (xs : list A) : list A :=
  skipn (length xs - n) xs.

(** [r] is the earliest retained sample whose timestamp is at least [cutoff]. *)
Definition earliest_since (cutoff : number) (buf : list sample) (r : sample)
  : Prop :=
  exists i,
    nth_error buf i = Some r
    /\ ge (Sample.t r) cutoff = true
    /\ forall j x, (j < i)%nat -> nth_error buf j = Some x ->
                   ge (Sample.t x) cutoff = false.

(** The reference sample of a window: the earliest sample inside it, or the
    oldest retained sample when no sample is inside. *)
Definition reference_sample (cutoff : number) (buf : list sample) (r : sample)
  : Prop :=
  earliest_since cutoff buf r
  \/ ((forall x, In x buf -> ge (Sample.t x) cutoff = false)
      /\ hd_error buf = Some r).

(** ** Position and lots *)

Module Lot.
(** One normalized lot [{qty, usd, price, ts}]. *)
Record lot := make { qty : number; usd : number; price : number; ts : value }.
End Lot.

Abbreviation lot := Lot.lot.

(** [normalizeLots(lots)]. *)
Fixpoint normalizeLots (lots : list lot_entry) : list lot :=
  match lots with
  | [] => []
  | l :: rest =>
      let price := ToNumber (entry_price l) in
      if negb (isFinite price) || le price 0%float then normalizeLots rest
      else if negb (is_nullish (entry_qty l)) then
        let qty := ToNumber (entry_qty l) in
        if negb (isFinite qty) || le qty 0%float then normalizeLots rest
        else
          Lot.make qty (qty * price)%float price (or_else (entry_ts l) Null)
          :: normalizeLots rest
      else if negb (is_nullish (entry_usd l)) then
        let usd := ToNumber (entry_usd l) in
        if negb (isFinite usd) || le usd 0%float then normalizeLots rest
        else
          Lot.make (usd / price)%float usd price (or_else (entry_ts l) Null)
          :: normalizeLots rest
      else normalizeLots rest
  end.

Module Position.
(** The object [{lotsCount, qty, invested, avgCost}]. *)
Record position := make {
  lotsCount : nat;
  qty : number;
  invested : number;
  avgCost : number }.
End Position.

Abbreviation position := Position.position.

(** [computePosition(overrideQtyMaybe)]. *)
Definition computePosition (cfg : config) (overrideQtyMaybe : number)
  : position :=
  let lots := normalizeLots (FIL_LOTS cfg) in
  let invested := fold_left (fun a l => (a + Lot.usd l)%float) lots 0%float in
  let qtyLots := fold_left (fun a l => (a + Lot.qty l)%float) lots 0%float in
  let qty :=
    if isFinite overrideQtyMaybe && gt overrideQtyMaybe 0%float
    then overrideQtyMaybe else qtyLots in
  let avg := if gt qty 0%float then (invested / qty)%float else NaN in
  Position.make (length lots) qty invested avg.

(** ** Alerts *)

(** The two alert texts, with the formatted price and threshold. *)
Inductive alert_text :=
| HitStopLoss (price threshold : text)
| HitTakeProfit (price threshold : text).

(** What an alert sends: the desktop notification, and the POST to the
    webhook. *)
Inductive effect :=
| Notify (title : string) (body : alert_text)
| Post (url : string) (content : alert_text).

Definition needsSL (cfg : config) (price : number) : bool :=
  isFinite (SL_PRICE cfg) && le price (SL_PRICE cfg).

Definition needsTP (cfg : config) (price : number) : bool :=
  isFinite (TP_PRICE cfg) && ge price (TP_PRICE cfg).

Definition canAlert (cfg : config) (now lastAlertTs : number) : bool :=
  ge (now - lastAlertTs)%float (ALERT_COOLDOWN_MIN cfg * 60000)%float.

(** [maybeAlert(price)]: the effects, in order, and the new [lastAlertTs]. *)
Definition maybeAlert (cfg : config) (now lastAlertTs price : number)
  : list effect * number :=
  if negb (ENABLE_ALERTS cfg) then ([], lastAlertTs)
  else if (needsSL cfg price || needsTP cfg price) && canAlert cfg now lastAlertTs
  then
    let text :=
      if needsSL cfg price
      then HitStopLoss (fmt2 price) (fmt2 (SL_PRICE cfg))
      else HitTakeProfit (fmt2 price) (fmt2 (TP_PRICE cfg)) in
    (Notify "FIL Target Alert" text
       :: (if negb (is_empty (ALERT_WEBHOOK cfg))
           then [Post (ALERT_WEBHOOK cfg) text] else []),
     now)
  else ([], lastAlertTs).

Definition is_notification (e : effect) : bool :=
  match e with Notify _ _ => true | Post _ _ => false end.

(** ** Price feeds *)

(** The two variables a price update writes. *)
Record feed := Feed { lastPrice : number; priceBuffer : list sample }.

(** [lastPrice = px; pushPrice(Date.now(), px);] *)
Definition accept (cfg : config) (now px : number) (st : feed) : feed :=
  {| lastPrice := px;
     priceBuffer := pushPrice (BUF_MAX_POINTS cfg) (priceBuffer st) now px |}.

(** [v === s] for a text [s]. *)
Definition is_string (v : value) (s : string) : bool :=
  match v with Str s' => (s' =? s)%string | _ => false end.

(** Coinbase [onmessage], up to [Number(m.price)]: the number the condition
    of the handler lets through, for the parsed message [m].  [None] when
    the condition fails, or when reading [m.type] throws. *)
Definition coinbase_px (m : value) : option number :=
  match getField m "type", getField m "product_id", getField m "price" with
  | Some ty, Some product, Some price =>
      if is_string ty "ticker" && is_string product "FIL-USD"
         && ToBoolean price
      then Some (ToNumber price)
      else None
  | _, _, _ => None
  end.

(** Kraken [onmessage], up to [Number(m[1].c[0])]. *)
Definition kraken_px (m : value) : option number :=
  match m with
  | Arr items =>
      let m1 := nth 1 items Undefined in
      if ToBoolean m1 then
        match getField m1 "c" with
        | Some c =>
            if ToBoolean c && ToBoolean (getFirst c)
            then Some (ToNumber (getFirst c))
            else None
        | None => None
        end
      else None
  | _ => None
  end.

(** The rest of both handlers: [if (Number.isFinite(px)) { ... }]. *)
Definition on_px (cfg : config) (now : number) (px : option number)
  (st : feed) : feed :=
  match px with
  | Some px => if isFinite px then accept cfg now px st else st
  | None => st
  end.

(** [ws.onmessage] of [startCoinbaseWS] for a message whose text parses to
    [m] (a text that does not parse throws before anything is written). *)
Definition coinbase_onmessage (cfg : config) (now : number) (m : value)
  (st : feed) : feed :=
  on_px cfg now (coinbase_px m) st.

(** [ws.onmessage] of [startKrakenWS]. *)
Definition kraken_onmessage (cfg : config) (now : number) (m : value)
  (st : feed) : feed :=
  on_px cfg now (kraken_px m) st.

(** What one REST request comes to: the promise rejects ([fetch] fails, the
    body is not JSON, or the picker throws), the status is not a success, or
    the picker returns a value. *)
Inductive response :=
| Rejected
| NotOk
| Picked (v : value).

(** [getJsonNum(url, pick)]: [None] when the promise rejects. *)
Definition getJsonNum (r : response) : option number :=
  match r with
  | Rejected => None
  | NotOk => Some NaN
  | Picked v =>
      let n := ToNumber v in Some (if isFinite n then n else NaN)
  end.

(** The [try] block of [poll] up to the last test: the price the three
    providers come to, [None] when a request that was made rejects. *)
Definition poll_px (cfg : config) (coinbase kraken coingecko : response)
  : option number :=
  match (if (PRICE_SOURCE cfg =? "coinbase")%string
         then getJsonNum coinbase else Some NaN) with
  | None => None
  | Some px1 =>
      match (if negb (isFinite px1) then getJsonNum kraken else Some px1) with
      | None => None
      | Some px2 =>
          if negb (isFinite px2) then getJsonNum coingecko else Some px2
      end
  end.

(** [poll] of [startRESTPolling]. *)
Definition poll (cfg : config) (now : number)
  (coinbase kraken coingecko : response) (st : feed) : feed :=
  on_px cfg now (poll_px cfg coinbase kraken coingecko) st.

(** The ticker message [{"type":"ticker","product_id":"FIL-USD","price":p}]. *)
Definition ticker (price : value) : value :=
  Obj [("type"%string, Str "ticker"); ("product_id"%string, Str "FIL-USD");
       ("price"%string, price)].

(** A Kraken ticker message [[340, {"c": [p, "1"]}, "ticker", "FIL/USD"]]:
    the last trade price is the first element of [c]. *)
Definition kraken_ticker (price : value) : value :=
  Arr [Num 340%float; Obj [("c"%string, Arr [price; Str "1"])];
       Str "ticker"; Str "FIL/USD"].

(** The feed variables as the script starts: [lastPrice = NaN] and an empty
    [priceBuffer]. *)
Definition initial_feed : feed := Feed NaN [].

(** What reaches the feed: a message on either socket, with the time it is
    handled at, or one round of polling with the outcome of each request. *)
Inductive feed_event :=
| CoinbaseMessage (now : number) (m : value)
| KrakenMessage (now : number) (m : value)
| RestPoll (now : number) (coinbase kraken coingecko : response).

Definition feed_step (cfg : config) (st : feed) (ev : feed_event) : feed :=
  match ev with
  | CoinbaseMessage now m => coinbase_onmessage cfg now m st
  | KrakenMessage now m => kraken_onmessage cfg now m st
  | RestPoll now r1 r2 r3 => poll cfg now r1 r2 r3 st
  end.

(** The feed variables after a sequence of events, from the start. *)
Definition feed_run (cfg : config) (evs : list feed_event) : feed :=
  fold_left (feed_step cfg) evs initial_feed.

(** No price written by the feed is NaN or infinite: [lastPrice] is still
    the initial NaN or is finite, and every buffered price is finite. *)
Definition feed_finite (st : feed) : Prop :=
  (lastPrice st = NaN \/ isFinite (lastPrice st) = true)
  /\ Forall (fun x => isFinite (Sample.p x) = true) (priceBuffer st).

(** ** On-chain balance *)

(** [replace(/^0+/, '')]. *)
Fixpoint strip_leading_zeros (s : string) : string :=
  match s with
  | String c r => if (c =? "0")%char then strip_leading_zeros r else s
  | EmptyString => s
  end.

(** [attoToFIL(attoStr)] for an argument that is a string. *)
Definition attoToFIL (attoStr : string) : number :=
  let s := strip_leading_zeros attoStr in
  if (String.length s =? 0)%nat then 0%float
  else if (String.length s <=? 18)%nat
  then StringToNumber ("0." ++ padStart 18 "0" s)%string
  else
    let intPart := substring 0 (String.length s - 18) s in
    let frac := substring (String.length s - 18) 18 s in
    StringToNumber (intPart ++ "." ++ frac)%string.

(** The addresses a refresh round looks up:
    [map(s => String(s || '').trim()).filter(Boolean)]. *)
Definition addresses (cfg : config) : list string :=
  filter (fun a => negb (is_empty a)) (map trim (FIL_ADDRESSES cfg)).

(** The loop of [fetchExodusQtyFIL]; [balance i a] is what the [i]-th call
    [await fetchFILAddressBalance(a)] of the round resolves to (NaN when
    every provider failed). *)
Fixpoint sum_balances (balance : nat -> string -> number) (i : nat)
  (addrs : list string) (total : number) : number :=
  match addrs with
  | [] => total
  | a :: rest =>
      let q := balance i a in
      sum_balances balance (S i) rest
        (if isFinite q then (total + q)%float else total)
  end.

(** The [total] of a round. *)
Definition round_total (cfg : config) (balance : nat -> string -> number)
  : number :=
  sum_balances balance 0 (addresses cfg) 0%float.

(** [fetchExodusQtyFIL()]: the value returned and the new [cachedQty]. *)
Definition fetchExodusQtyFIL (cfg : config)
  (balance : nat -> string -> number) (cachedQty : number)
  : number * number :=
  if negb (USE_EXODUS_BALANCE cfg) then (NaN, cachedQty)
  else
    match addresses cfg with
    | [] => (NaN, cachedQty)
    | _ =>
        let total := round_total cfg balance in
        if negb (isFinite total) || le total 0%float
        then (if isFinite cachedQty then cachedQty else NaN, cachedQty)
        else (total, total)
    end.

(** [refreshQty] of [init]: [cachedQty = await fetchExodusQtyFIL()]. *)
Definition refreshQty (cfg : config) (balance : nat -> string -> number)
  (cachedQty : number) : number :=
  fst (fetchExodusQtyFIL cfg balance cachedQty).

(** The values [cachedQty] takes: NaN at start, then whatever the refresh
    rounds leave. *)
Inductive cache_reachable (cfg : config) : number -> Prop :=
| cache_initial : cache_reachable cfg NaN
| cache_refreshed balance c :
    cache_reachable cfg c -> cache_reachable cfg (refreshQty cfg balance c).

(** What the cache holds: nothing yet (NaN), or a finite positive total. *)
Definition cache_valid (c : number) : Prop :=
  c = NaN \/ (isFinite c = true /\ le c 0%float = false).

(** A round without a usable sum: balances are switched off, no address is
    configured, or the total of the finite per-address results is not a
    finite positive number. *)
Definition round_unavailable (cfg : config)
  (balance : nat -> string -> number) : bool :=
  negb (USE_EXODUS_BALANCE cfg)
  || match addresses cfg with [] => true | _ => false end
  || negb (isFinite (round_total cfg balance))
  || le (round_total cfg balance) 0%float.

(** ** Render loop *)

Inductive color := COLOR_POS | COLOR_NEG | COLOR_NEU.

(** The figures of [render], named as its constants are. *)
Definition value_of (lastPrice : number) (pos : position) : number :=
  if isFinite lastPrice then (Position.qty pos * lastPrice)%float else NaN.

Definition pnlUSD (lastPrice : number) (pos : position) : number :=
  let value := value_of lastPrice pos in
  if isFinite value then (value - Position.invested pos)%float else NaN.

Definition pnlPct (lastPrice : number) (pos : position) : number :=
  if gt (Position.invested pos) 0%float && isFinite (value_of lastPrice pos)
  then ((pnlUSD lastPrice pos / Position.invested pos) * 100)%float
  else NaN.

Definition fromAvgPct (lastPrice : number) (pos : position) : number :=
  if isFinite (Position.avgCost pos) && gt (Position.avgCost pos) 0%float
     && isFinite lastPrice
  then (((lastPrice - Position.avgCost pos) / Position.avgCost pos) * 100)%float
  else NaN.

(** [((target / lastPrice) - 1) * 100]. *)
Definition targetDistancePct (target lastPrice : number) : number :=
  (((target / lastPrice) - 1) * 100)%float.

(** [tps] and [sls]: the formatted target and its distance, or [null]. *)
Definition target_line (target lastPrice : number) : option (text * text) :=
  if isFinite target && isFinite lastPrice
  then Some (fmt2 target, fmtPct (targetDistancePct target lastPrice))
  else None.

(** What [render] writes to the page. *)
Record page := Page {
  price_text : text;
  price_class : color;
  delta_1h : text;
  delta_24h : text;
  high_24h : text;
  low_24h : text;
  lots_count : nat;
  qty_text : text;
  cost_text : text;
  avg_text : text;
  value_text : text;
  pnl_usd_text : text;
  pnl_pct_text : text;
  from_avg_text : text;
  tp_line : option (text * text);
  sl_line : option (text * text) }.

(** The page part of [render()]; [stats24] is the pair [(high, low)], and
    [now] stands for the readings of [Date.now()] made during the call, taken
    at one instant. *)
Definition render_page (cfg : config) (now : number) (st : feed)
  (stats24 : number * number) (cachedQty : number) : page :=
  let buf := priceBuffer st in
  let lastPrice := lastPrice st in
  let prev :=
    if (1 <? length buf)%nat
    then Sample.p (nth (length buf - 2) buf (Sample.make NaN NaN))
    else lastPrice in
  let priceClass :=
    if isFinite lastPrice
    then (if ge lastPrice prev then COLOR_POS else COLOR_NEG)
    else COLOR_NEU in
  let ch1h := pctChangeSinceMs now buf (1 * 3600 * 1000)%float in
  let ch24h := pctChangeSinceMs now buf (24 * 3600 * 1000)%float in
  let mm := minMaxSinceMs now buf (24 * 3600 * 1000)%float in
  let hi := if isFinite (fst stats24) then fst stats24 else fst mm in
  let lo := if isFinite (snd stats24) then snd stats24 else snd mm in
  let pos := computePosition cfg cachedQty in
  {| price_text := if isFinite lastPrice then fmt2 lastPrice else Dash;
     price_class := priceClass;
     delta_1h := fmtPct ch1h;
     delta_24h := fmtPct ch24h;
     high_24h := fmt2 hi;
     low_24h := fmt2 lo;
     lots_count := Position.lotsCount pos;
     qty_text := fmtFIL (Position.qty pos);
     cost_text := fmt2 (Position.invested pos);
     avg_text := fmt6 (Position.avgCost pos);
     value_text := fmt2 (value_of lastPrice pos);
     pnl_usd_text := fmt2 (pnlUSD lastPrice pos);
     pnl_pct_text := fmtPct (pnlPct lastPrice pos);
     from_avg_text := fmtPct (fromAvgPct lastPrice pos);
     tp_line := target_line (TP_PRICE cfg) lastPrice;
     sl_line := target_line (SL_PRICE cfg) lastPrice |}.

(** [render()]: the page, the effects of the alert check and the new
    [lastAlertTs]. *)
Definition render (cfg : config) (now : number) (st : feed)
  (stats24 : number * number) (cachedQty lastAlertTs : number)
  : page * (list effect * number) :=
  (render_page cfg now st stats24 cachedQty,
   if isFinite (lastPrice st)
   then maybeAlert cfg now lastAlertTs (lastPrice st)
   else ([], lastAlertTs)).



(** ** Further definitions: order of numbers, scans and runs *)

(** A key whose lexicographic order is the order of the binary64 values
    that are not NaN: the sign class, then the exponent, then the mantissa
    (both negated for negative values). *)
Definition SF_key (x : spec_float) : Z * (Z * Z) :=
  match x with
  | S754_nan => (0, (0, 0))%Z
  | S754_zero _ => (0, (0, 0))%Z
  | S754_infinity true => (-2, (0, 0))%Z
  | S754_infinity false => (2, (0, 0))%Z
  | S754_finite false m e => (1, (e, Zpos m))%Z
  | S754_finite true m e => (-1, (- e, Zneg m))%Z
  end.

Definition key_le (a b : Z * (Z * Z)) : Prop :=
  (fst a < fst b
   \/ (fst a = fst b
       /\ (fst (snd a) < fst (snd b)
           \/ (fst (snd a) = fst (snd b) /\ snd (snd a) <= snd (snd b)))))%Z.

Definition key_lt (a b : Z * (Z * Z)) : Prop :=
  (fst a < fst b
   \/ (fst a = fst b
       /\ (fst (snd a) < fst (snd b)
           \/ (fst (snd a) = fst (snd b) /\ snd (snd a) < snd (snd b)))))%Z.

(** The body of the loop of [minMaxSinceMs], on the pair [(hi, lo)]. *)
Definition minmax_step (acc : number * number) (x : sample)
  : number * number :=
  let '(hi, lo) := acc in
  if isFinite (Sample.p x)
  then (if gt (Sample.p x) hi then Sample.p x else hi,
        if lt (Sample.p x) lo then Sample.p x else lo)
  else (hi, lo).

(** The array [minMaxSinceMs] scans: the samples of the window, or the
    whole buffer when the window holds none. *)
Definition scanned (now : number) (buf : list sample) (ms : number)
  : list sample :=
  match filter (fun x => ge (Sample.t x) (now - ms)%float) buf with
  | [] => buf
  | w => w
  end.

(** What holds of the pair [(hi, lo)] once the samples [seen] were scanned:
    no finite price was met and the pair is still [(-Infinity, Infinity)],
    or both are finite prices that were met and they bound every finite
    price met. *)
Definition minmax_inv (seen : list sample) (acc : number * number) : Prop :=
  ((forall x, In x seen -> isFinite (Sample.p x) = false)
   /\ acc = (neg_infinity, infinity))
  \/ ((exists x, In x seen /\ isFinite (Sample.p x) = true
                 /\ fst acc = Sample.p x)
      /\ (exists x, In x seen /\ isFinite (Sample.p x) = true
                    /\ snd acc = Sample.p x)
      /\ forall x, In x seen -> isFinite (Sample.p x) = true ->
                   le (snd acc) (Sample.p x) = true
                   /\ le (Sample.p x) (fst acc) = true).

(** A normalized lot as [normalizeLots] makes them: a finite positive
    price, and either a finite positive [qty] with [usd = qty * price] or a
    finite positive [usd] with [qty = usd / price]. *)
Definition lot_valid (l : lot) : Prop :=
  isFinite (Lot.price l) = true
  /\ le (Lot.price l) 0%float = false
  /\ ((isFinite (Lot.qty l) = true /\ le (Lot.qty l) 0%float = false
       /\ Lot.usd l = (Lot.qty l * Lot.price l)%float)
      \/ (isFinite (Lot.usd l) = true /\ le (Lot.usd l) 0%float = false
          /\ Lot.qty l = (Lot.usd l / Lot.price l)%float)).

(** ** 24h statistics *)

(** What a request for a JSON body comes to: the promise rejects ([fetch]
    fails or the body is not JSON), the status is not a success, or the body
    parses to [j]. *)
Inductive reply :=
| Failed
| StatusNotOk
| Body (j : value).




(** ** Runs of the alert check *)

(** The times at which alerts are sent along a sequence of evaluations
    [(now, price)], in order, from a given [lastAlertTs]. *)
Fixpoint alert_fires (cfg : config) (ticks : list (number * number))
  (lastAlertTs : number) : list number :=
  match ticks with
  | [] => []
  | (now, price) :: rest =>
      let out := maybeAlert cfg now lastAlertTs price in
      match fst out with
      | [] => alert_fires cfg rest (snd out)
      | _ :: _ => now :: alert_fires cfg rest (snd out)
      end
  end.

(** Each time of the list is at least the cooldown after the one before it,
    [prev] standing before the first: [t - prev >= ALERT_COOLDOWN_MIN *
    60000] as the script computes it. *)
Fixpoint spaced (cfg : config) (prev : number) (fires : list number) : Prop :=
  match fires with
  | [] => True
  | f :: rest =>
      ge (f - prev)%float (ALERT_COOLDOWN_MIN cfg * 60000)%float = true
      /\ spaced cfg f rest
  end.

(** [lastPrice] is the price of the newest buffered sample (NaN standing
    for the price of the empty buffer). *)
Definition feed_synced (st : feed) : Prop :=
  Sample.p (List.last (priceBuffer st) (Sample.make NaN NaN)) = lastPrice st.

(** A REST answer that gives no price without rejecting: a status that is
    not a success, or a picked value that is no finite number. *)
Definition unusable (r : response) : Prop :=
  r = NotOk \/ exists w, r = Picked w /\ isFinite (ToNumber w) = false.

(** ** Balance of one address *)

(** [/FIL$/i.test(s)] and [s.replace(/FIL/i, '')]: the letters match in
    either case; [replace] removes the leftmost occurrence. *)
Definition is_F (c : ascii) : bool := (c =? "F")%char || (c =? "f")%char.
Definition is_I (c : ascii) : bool := (c =? "I")%char || (c =? "i")%char.
Definition is_L (c : ascii) : bool := (c =? "L")%char || (c =? "l")%char.

Fixpoint ends_FIL (s : string) : bool :=
  match s with
  | EmptyString => false
  | String a r =>
      match r with
      | String b (String c EmptyString) =>
          (is_F a && is_I b && is_L c) || ends_FIL r
      | _ => ends_FIL r
      end
  end.

Fixpoint remove_FIL (s : string) : string :=
  match s with
  | EmptyString => EmptyString
  | String a r =>
      match r with
      | String b (String c rest) =>
          if is_F a && is_I b && is_L c then rest else String a (remove_FIL r)
      | _ => s
      end
  end.

(** [/^\d+$/.test(s)]. *)
Definition all_digits (s : string) : bool :=
  negb (is_empty s) && all_chars is_digit s.

Section AddressBalance.

(** The text of a Number ([Number::toString]) is not unfolded: it is a
    parameter, and what is proved holds for every reading of it. *)
Variable NumberToString : number -> string.

(** [String(v)].  An array prints its elements separated by commas,
    [null] and [undefined] among them as nothing. *)
Fixpoint ToString (v : value) : string :=
  match v with
  | Undefined => "undefined"
  | Null => "null"
  | Bool b => if b then "true" else "false"
  | Num x => NumberToString x
  | Str s => s
  | Arr items =>
      (fix join (l : list value) : string :=
         match l with
         | [] => EmptyString
         | x :: rest =>
             let e :=
               match x with
               | Undefined | Null => EmptyString
               | _ => ToString x
               end in
             match rest with
             | [] => e
             | _ :: _ => (e ++ "," ++ join rest)%string
             end
         end) items
  | Obj _ => "[object Object]"
  end.

(** One turn of the loop over the GLIF endpoints: [Some x] when the turn
    returns [x], [None] when it goes on (the request failed, the status is
    not a success, or the body has no truthy [result]). *)
Definition glif_balance (r : reply) : option number :=
  match r with
  | Body j =>
      if ToBoolean j then
        match getField j "result" with
        | Some res =>
            if ToBoolean res then Some (attoToFIL (ToString res)) else None
        | None => None
        end
      else None
  | _ => None
  end.

(** The Filfox fallback: [Some x] when it returns [x], [None] when it falls
    through to the final [return NaN]. *)
Definition filfox_balance (r : reply) : option number :=
  match r with
  | Body j =>
      match (if ToBoolean j
             then match getField j "balance", getField j "available",
                        getField j "balanceString" with
                  | Some x, Some y, Some z => Some (or_else (or_else x y) z)
                  | _, _, _ => None
                  end
             else Some j) with
      | Some b =>
          if is_nullish b then None
          else
            let s := ToString b in
            if all_digits s then Some (attoToFIL s)
            else if ends_FIL s
            then Some (StringToNumber (trim (remove_FIL s)))
            else
              let n := StringToNumber s in
              if isFinite n then Some n else None
      | None => None
      end
  | _ => None
  end.

(** [fetchFILAddressBalance(addr)], given what the two GLIF requests and
    the Filfox request come to. *)
Definition fetchFILAddressBalance (glif1 glif2 filfox : reply) : number :=
  match glif_balance glif1 with
  | Some x => x
  | None =>
      match glif_balance glif2 with
      | Some x => x
      | None =>
          match filfox_balance filfox with
          | Some x => x
          | None => NaN
          end
      end
  end.

End AddressBalance.

(** A request that brings no body: it failed or its status is not a
    success. *)
Definition silent (r : reply) : Prop := r = Failed \/ r = StatusNotOk.

(** The lookups of a refresh round, from what the three requests of each
    call come to. *)
Definition balance_of (NumberToString : number -> string)
  (replies : nat -> string -> reply * reply * reply)
  : nat -> string -> number :=
  fun i a =>
    let '(glif1, glif2, filfox) := replies i a in
    fetchFILAddressBalance NumberToString glif1 glif2 filfox.

(** * Properties *)

(** ** Binary64 facts

    The primitive operations are specified by [Prim2SF] and the [SF64]
    operations; the lemmas below read the tests of the script on that side. *)

Section Binary64.

Local Open Scope Z_scope.

Lemma SFeqb_irrefl_nan x : SFeqb x x = false -> x = S754_nan.
Proof.
  unfold SFeqb, SFcompare.
  destruct x as [s | s | | s m e]; try destruct s; try discriminate; auto;
    rewrite Z.compare_refl, Pos.compare_cont_refl; discriminate.
Qed.

Lemma is_nan_spec x : is_nan x = true <-> Prim2SF x = S754_nan.
Proof.
  unfold is_nan. rewrite FloatAxioms.eqb_spec. split.
  - intros H. apply SFeqb_irrefl_nan. now apply negb_true_iff.
  - intros ->. reflexivity.
Qed.

Lemma is_finite_spec x : is_finite x = true -> finite_SF (Prim2SF x).
Proof.
  unfold is_finite, is_nan, is_infinity.
  rewrite !FloatAxioms.eqb_spec, abs_spec.
  destruct (Prim2SF x) as [s | s | | s m e]; try constructor.
  - destruct s; discriminate.
  - discriminate.
Qed.

Lemma finite_nonzero_spec x :
  is_finite x = true -> (x =? 0)%float = false ->
  exists s m e, Prim2SF x = S754_finite s m e.
Proof.
  intros Hf Hz. apply is_finite_spec in Hf.
  rewrite FloatAxioms.eqb_spec in Hz.
  change (Prim2SF 0) with (S754_zero false) in Hz.
  destruct Hf as [s | s m e]; [ discriminate | eauto ].
Qed.

(** Rounding keeps a mantissa that is not negative: it never makes a NaN. *)
Lemma shr_1_nonneg mrs : 0 <= shr_m mrs -> 0 <= shr_m (shr_1 mrs).
Proof.
  destruct mrs as [m r s]. simpl.
  destruct m as [| q | q]; [ | destruct q | ]; simpl; lia.
Qed.

Lemma iter_shr_1_nonneg n mrs :
  0 <= shr_m mrs -> 0 <= shr_m (iter_pos shr_1 n mrs).
Proof.
  revert mrs. induction n as [n IH | n IH |]; intros mrs H; simpl.
  - apply IH, IH, shr_1_nonneg, H.
  - apply IH, IH, H.
  - apply shr_1_nonneg, H.
Qed.

Lemma shr_fexp_nonneg m e l :
  0 <= m -> 0 <= shr_m (fst (shr_fexp prec emax m e l)).
Proof.
  intros H. unfold shr_fexp, shr.
  assert (H0 : 0 <= shr_m (shr_record_of_loc m l)).
  { destruct l as [| c]; [ | destruct c]; exact H. }
  destruct (fexp prec emax (Zdigits2 m + e) - e); simpl; auto.
  now apply iter_shr_1_nonneg.
Qed.

Lemma round_nearest_even_nonneg m l : 0 <= m -> 0 <= round_nearest_even m l.
Proof.
  intros H. destruct l as [| c]; [ | destruct c]; simpl; try lia.
  destruct (Z.even m); lia.
Qed.

Lemma binary_round_aux_not_nan s m e l :
  0 <= m -> binary_round_aux prec emax s m e l <> S754_nan.
Proof.
  intros H. unfold binary_round_aux.
  pose proof (shr_fexp_nonneg m e l H) as H1.
  destruct (shr_fexp prec emax m e l) as [mrs' e'].
  simpl in H1.
  pose proof (round_nearest_even_nonneg _ (loc_of_shr_record mrs') H1) as H2.
  pose proof (shr_fexp_nonneg _ e' loc_Exact H2) as H3.
  destruct (shr_fexp prec emax _ e' loc_Exact) as [mrs'' e''].
  simpl in H3.
  destruct (shr_m mrs'') as [| q | q]; try discriminate; try lia.
  destruct (e'' <=? emax - prec); discriminate.
Qed.

Lemma binary_normalize_not_nan m e s :
  binary_normalize prec emax m e s <> S754_nan.
Proof.
  unfold binary_normalize, binary_round.
  destruct m as [| q | q]; try discriminate;
    destruct (shl_align _ _ _); apply binary_round_aux_not_nan; lia.
Qed.

Lemma SF64sub_not_nan x y :
  finite_SF x -> finite_SF y -> SF64sub x y <> S754_nan.
Proof.
  intros [sx | sx mx ex] [sy | sy my ey]; unfold SF64sub, SFsub;
    try discriminate.
  - destruct sx, sy; discriminate.
  - apply binary_normalize_not_nan.
Qed.

Lemma SF64div_not_nan x s m e :
  x <> S754_nan -> SF64div x (S754_finite s m e) <> S754_nan.
Proof.
  intros Hx. unfold SF64div, SFdiv.
  destruct x as [sx | sx | | sx mx ex]; try discriminate; try congruence.
  unfold SFdiv_core_binary.
  set (m' := match _ - _ - _ with Z0 => _ | Zpos _ => _ | Zneg _ => _ end).
  assert (Hm : 0 <= m').
  { subst m'. destruct (_ - _ - _); try lia. apply Z.shiftl_nonneg. lia. }
  pose proof (Z.div_pos m' (Zpos m) Hm ltac:(lia)) as Hq.
  unfold Z.div in Hq.
  destruct (Z.div_eucl m' (Zpos m)) as [q r]. simpl in Hq.
  now apply binary_round_aux_not_nan.
Qed.

Lemma SF64mul_not_nan x s m e :
  x <> S754_nan -> SF64mul x (S754_finite s m e) <> S754_nan.
Proof.
  intros Hx. unfold SF64mul, SFmul.
  destruct x as [sx | sx | | sx mx ex]; try discriminate; try congruence.
  apply binary_round_aux_not_nan. lia.
Qed.

(** The percent change of two finite prices over a reference that is not
    zero is a number (possibly infinite), never NaN. *)
Lemma percent_not_nan a b :
  isFinite a = true -> isFinite b = true -> strict_eq b 0%float = false ->
  is_nan (((a - b) / b) * 100)%float = false.
Proof.
  unfold isFinite, strict_eq. intros Ha Hb Hz.
  destruct (finite_nonzero_spec _ Hb Hz) as (s & m & e & Eb).
  apply is_finite_spec in Ha, Hb.
  destruct (is_nan _) eqn:E; [ | reflexivity ].
  apply is_nan_spec in E.
  rewrite mul_spec, div_spec, sub_spec in E.
  exfalso. revert E.
  change (Prim2SF 100) with (S754_finite false 7036874417766400 (-46)).
  apply SF64mul_not_nan. rewrite Eb at 2. apply SF64div_not_nan.
  now apply SF64sub_not_nan.
Qed.

(** A number that is not [<= 0] is not [=== 0]. *)
Lemma not_le_zero_not_zero x :
  le x 0%float = false -> strict_eq x 0%float = false.
Proof.
  unfold le, strict_eq. rewrite leb_spec, FloatAxioms.eqb_spec.
  unfold SFleb, SFeqb.
  destruct (SFcompare _ _) as [[ | | ] | ]; congruence.
Qed.


End Binary64.

(** ** The reader of numeric literals

    [StringToNumber] agrees with the literals as the kernel reads them, at
    exact values, at inexact ones, at a tie, at both ends of the range and
    on texts that are not literals. *)

Example StringToNumber_samples :
  map StringToNumber
    [ "1.5"; "0.1"; "-1"; "0"; "-0"; ""; "  42 "; ".5"; "5."; "1e21";
      "1E+2"; "1e-2"; "0x1F"; "0b101"; "0o17"; "9007199254740993";
      "1.7976931348623157e308"; "1e309"; "4.9e-324"; "2.4e-324";
      "Infinity"; "-Infinity"; "abc"; "."; "1e"; "0x"; "1,2"; "- 1" ]%string
  = [ 1.5; 0.1; -1; 0; -0; 0; 42; 0.5; 5; 1e21;
      100; 0.01; 31; 5; 15; 9007199254740992;
      1.7976931348623157e308; infinity; 4.9e-324; 0;
      infinity; neg_infinity; nan; nan; nan; nan; nan; nan ]%float.
Proof. vm_compute. reflexivity. Qed.

(** ** Sample buffer *)

Section SampleBuffer.

Variable cap : nat.

Lemma pushPrice_lastn (b : list sample) (t p : number) :
  pushPrice cap b t p = lastn cap (b ++ [Sample.make t p]).
Proof.
  unfold pushPrice, lastn.
  destruct (Nat.ltb_spec cap (length (b ++ [Sample.make t p]))) as [H | H].
  - reflexivity.
  - replace (length (b ++ [Sample.make t p]) - cap) with 0 by lia.
    reflexivity.
Qed.

Lemma lastn_length {A} (xs : list A) : length (lastn cap xs) <= cap.
Proof. unfold lastn. rewrite length_skipn. lia. Qed.

Lemma lastn_snoc {A} (xs : list A) (x : A) :
  lastn cap (lastn cap xs ++ [x]) = lastn cap (xs ++ [x]).
Proof.
  unfold lastn.
  rewrite !length_app, length_skipn. simpl length.
  destruct (Nat.le_gt_cases (length xs) cap) as [H | H].
  - replace (length xs - cap) with 0 by lia.
    rewrite Nat.sub_0_r. reflexivity.
  - replace (length xs - (length xs - cap) + 1 - cap) with 1 by lia.
    replace (length xs + 1 - cap) with (1 + (length xs - cap)) by lia.
    rewrite <- skipn_skipn.
    f_equal.
    rewrite (skipn_app (length xs - cap) xs).
    replace (length xs - cap - length xs) with 0 by lia.
    reflexivity.
Qed.

Lemma pushAll_lastn (xs b : list sample) :
  pushAll cap (lastn cap b) xs = lastn cap (b ++ xs).
Proof.
  revert b. induction xs as [| x xs IH]; intros b.
  - rewrite app_nil_r. reflexivity.
  - unfold pushAll in *. simpl fold_left.
    rewrite pushPrice_lastn.
    destruct x as [tx px]. simpl Sample.t. simpl Sample.p.
    rewrite lastn_snoc, IH, <- app_assoc. reflexivity.
Qed.

End SampleBuffer.

(** C1. Whatever the capacity and the sequence of appends, the buffer that
    results from the appends (starting from the empty buffer of the script)
    holds at most [cap] samples, and they are the last [cap] appended, in the
    order of their insertion; the statement holds after each append since it
    holds for every sequence.  [BUF_MAX_POINTS], the capacity of the script, is
    600. *)
Theorem pushPrice_bounded_fifo (cap : nat) (xs : list sample) :
  (length (pushAll cap [] xs) <= cap)%nat
  /\ pushAll cap [] xs = lastn cap xs
  /\ BUF_MAX_POINTS default_config = 600%nat.
Proof.
  assert (E : pushAll cap [] xs = lastn cap xs).
  { change (@nil sample) with (lastn cap (@nil sample)) at 1.
    apply pushAll_lastn. }
  rewrite E. split; [apply lastn_length | split; reflexivity].
Qed.

Section PercentChange.

Variable cutoff : number.

Lemma first_since_cases (buf : list sample) (d : sample) :
  earliest_since cutoff buf (first_since cutoff buf d)
  \/ ((forall x, In x buf -> ge (Sample.t x) cutoff = false)
      /\ first_since cutoff buf d = d).
Proof.
  induction buf as [| x rest IH]; simpl.
  - right. split; [ intros x [] | reflexivity ].
  - destruct (ge (Sample.t x) cutoff) eqn:E.
    + left. exists 0%nat. split; [ reflexivity | split; [ exact E | ] ].
      intros j y Hj. lia.
    + destruct IH as [(i & Hi & Hge & Hmin) | (Hnone & Hd)].
      * left. exists (S i). split; [ exact Hi | split; [ exact Hge | ] ].
        intros [| j] y Hj Hy; simpl in Hy.
        -- injection Hy as <-. exact E.
        -- apply (Hmin j y); [ lia | exact Hy ].
      * right. split; [ | exact Hd ].
        intros y [<- | Hy]; [ exact E | now apply Hnone ].
Qed.

Lemma first_since_reference (first : sample) (rest : list sample) :
  reference_sample cutoff (first :: rest)
    (first_since cutoff (first :: rest) first).
Proof.
  destruct (first_since_cases (first :: rest) first) as [H | [Hnone Hd]].
  - left. exact H.
  - right. split; [ exact Hnone | rewrite Hd; reflexivity ].
Qed.

Lemma reference_sample_unique (buf : list sample) (r r' : sample) :
  reference_sample cutoff buf r -> reference_sample cutoff buf r' -> r = r'.
Proof.
  intros [(i & Hi & Hge & Hmin) | (Hnone & Hd)]
         [(i' & Hi' & Hge' & Hmin') | (Hnone' & Hd')].
  - destruct (Nat.lt_trichotomy i i') as [L | [-> | L]].
    + rewrite (Hmin' i r L Hi) in Hge. discriminate.
    + congruence.
    + rewrite (Hmin i' r' L Hi') in Hge'. discriminate.
  - apply nth_error_In in Hi. rewrite (Hnone' r Hi) in Hge. discriminate.
  - apply nth_error_In in Hi'. rewrite (Hnone r' Hi') in Hge'. discriminate.
  - congruence.
Qed.

End PercentChange.

(** C2. [pctChangeSinceMs] is NaN (the script's "undefined") on the empty
    buffer.  On a buffer that is not empty there is exactly one reference
    sample (the earliest retained sample with [t >= now - ms], the oldest
    retained one when there is none); when both end prices are finite and the
    reference price is not zero the result is
    [(last.p - ref.p) / ref.p * 100] and is not NaN, and in every other case
    it is NaN.  On [[(t0, 100); (t1, 110)]] with [t0] inside the window the
    result is exactly 10. *)
Theorem pctChangeSinceMs_correct (now ms : number) (buf : list sample) :
  match buf with
  | [] => pctChangeSinceMs now buf ms = NaN
  | first :: _ =>
      exists ref,
        reference_sample (now - ms)%float buf ref
        /\ (forall r, reference_sample (now - ms)%float buf r -> r = ref)
        /\ let last := List.last buf first in
           if isFinite (Sample.p ref) && isFinite (Sample.p last)
              && negb (strict_eq (Sample.p ref) 0%float)
           then pctChangeSinceMs now buf ms
                = (((Sample.p last - Sample.p ref) / Sample.p ref) * 100)%float
                /\ is_nan (pctChangeSinceMs now buf ms) = false
           else pctChangeSinceMs now buf ms = NaN
  end
  /\ forall t0 t1 : number,
       ge t0 (now - ms)%float = true ->
       pctChangeSinceMs now
         [Sample.make t0 100%float; Sample.make t1 110%float] ms
       = 10%float.
Proof.
  split.
  - destruct buf as [| first rest]; [ reflexivity | ].
    exists (first_since (now - ms)%float (first :: rest) first).
    split; [ apply first_since_reference | split ].
    + intros r Hr. eapply reference_sample_unique; [ exact Hr | ].
      apply first_since_reference.
    + unfold pctChangeSinceMs.
      set (ref := first_since _ _ _). set (last := List.last _ _).
      cbv zeta.
      destruct (isFinite (Sample.p ref)) eqn:Er; simpl; [ | reflexivity ].
      destruct (isFinite (Sample.p last)) eqn:El; simpl; [ | reflexivity ].
      destruct (strict_eq (Sample.p ref) 0%float) eqn:Ez; simpl;
        [ reflexivity | ].
      split; [ reflexivity | now apply percent_not_nan ].
  - intros t0 t1 H. unfold pctChangeSinceMs. simpl first_since.
    rewrite H. reflexivity.
Qed.

(** The two-sample case at [now = 1000], a window of 500 ms and samples
    taken at 600 and 700. *)
Lemma pctChangeSinceMs_correct_witness :
  ge 600%float (1000 - 500)%float = true
  /\ pctChangeSinceMs 1000%float
       [Sample.make 600%float 100%float; Sample.make 700%float 110%float]
       500%float
     = 10%float.
Proof.
  split; [ reflexivity | ].
  apply (proj2 (pctChangeSinceMs_correct 1000%float 500%float [])).
  reflexivity.
Defined.

(** ** Alert evaluator *)

Section Alerts.

Variable cfg : config.
Variables now lastAlertTs price : number.

(** The stop-loss is configured and reached; the take-profit is configured
    and reached; the cooldown has elapsed. *)
Let stop_loss : Prop :=
  isFinite (SL_PRICE cfg) = true /\ le price (SL_PRICE cfg) = true.
Let take_profit : Prop :=
  isFinite (TP_PRICE cfg) = true /\ ge price (TP_PRICE cfg) = true.
Let cooled_down : Prop :=
  ge (now - lastAlertTs)%float (ALERT_COOLDOWN_MIN cfg * 60000)%float = true.

Lemma needsSL_iff : needsSL cfg price = true <-> stop_loss.
Proof. unfold needsSL, stop_loss. apply andb_true_iff. Qed.

Lemma needsTP_iff : needsTP cfg price = true <-> take_profit.
Proof. unfold needsTP, take_profit. apply andb_true_iff. Qed.

Lemma fires_iff :
  (needsSL cfg price || needsTP cfg price) && canAlert cfg now lastAlertTs
  = true
  <-> (stop_loss \/ take_profit) /\ cooled_down.
Proof.
  rewrite andb_true_iff, orb_true_iff, needsSL_iff, needsTP_iff.
  reflexivity.
Qed.

Lemma maybeAlert_disabled :
  ENABLE_ALERTS cfg = false ->
  maybeAlert cfg now lastAlertTs price = ([], lastAlertTs).
Proof. intros H. unfold maybeAlert. rewrite H. reflexivity. Qed.

End Alerts.

(** C3. With alerts enabled (as the script sets [ENABLE_ALERTS]), one
    evaluation sends something if and only if a configured threshold is
    reached ([price <= SL_PRICE] or [price >= TP_PRICE], a threshold being
    configured when it is finite) and [now - lastAlertTs >= cooldown].  When
    it does, it sends one notification, whose text is the stop-loss one as
    soon as the stop-loss is reached and the take-profit one otherwise, the
    same text once more to the webhook when one is set, and [lastAlertTs]
    becomes [now].  When it does not, nothing is sent and [lastAlertTs] is
    left as it was.  An evaluation never sends two notifications. *)
Theorem maybeAlert_correct (cfg : config) (now lastAlertTs price : number) :
  ENABLE_ALERTS cfg = true ->
  let stop_loss :=
    isFinite (SL_PRICE cfg) = true /\ le price (SL_PRICE cfg) = true in
  let take_profit :=
    isFinite (TP_PRICE cfg) = true /\ ge price (TP_PRICE cfg) = true in
  let cooled_down :=
    ge (now - lastAlertTs)%float (ALERT_COOLDOWN_MIN cfg * 60000)%float
    = true in
  let effects := fst (maybeAlert cfg now lastAlertTs price) in
  let lastAlertTs' := snd (maybeAlert cfg now lastAlertTs price) in
  (effects <> [] <-> (stop_loss \/ take_profit) /\ cooled_down)
  /\ (effects <> [] ->
      exists text,
        (stop_loss -> text = HitStopLoss (fmt2 price) (fmt2 (SL_PRICE cfg)))
        /\ (~ stop_loss ->
            text = HitTakeProfit (fmt2 price) (fmt2 (TP_PRICE cfg)))
        /\ effects
           = Notify "FIL Target Alert" text
               :: (if is_empty (ALERT_WEBHOOK cfg) then []
                   else [Post (ALERT_WEBHOOK cfg) text])
        /\ length (filter is_notification effects) = 1%nat
        /\ lastAlertTs' = now)
  /\ (effects = [] -> lastAlertTs' = lastAlertTs)
  /\ (length (filter is_notification effects) <= 1)%nat.
Proof.
  intros Hen. cbv zeta.
  pose proof (fires_iff cfg now lastAlertTs price) as Hfire.
  pose proof (needsSL_iff cfg price) as HSL.
  unfold maybeAlert. rewrite Hen. simpl negb. cbv iota.
  destruct ((needsSL cfg price || needsTP cfg price)
            && canAlert cfg now lastAlertTs) eqn:F.
  - simpl fst. simpl snd.
    assert (Hlen :
      forall text,
        length (filter is_notification
          (Notify "FIL Target Alert" text
             :: (if negb (is_empty (ALERT_WEBHOOK cfg))
                 then [Post (ALERT_WEBHOOK cfg) text] else [])))
        = 1%nat).
    { intros text. destruct (is_empty (ALERT_WEBHOOK cfg)); reflexivity. }
    split; [ | split; [ | split ] ].
    + split; [ intros _; now apply Hfire | discriminate ].
    + intros _.
      exists (if needsSL cfg price
              then HitStopLoss (fmt2 price) (fmt2 (SL_PRICE cfg))
              else HitTakeProfit (fmt2 price) (fmt2 (TP_PRICE cfg))).
      split; [ | split; [ | split; [ | split ] ] ].
      * intros H. apply HSL in H. rewrite H. reflexivity.
      * intros H. destruct (needsSL cfg price) eqn:E; [ | reflexivity ].
        exfalso. apply H, HSL. reflexivity.
      * destruct (is_empty (ALERT_WEBHOOK cfg)); reflexivity.
      * apply Hlen.
      * reflexivity.
    + discriminate.
    + rewrite Hlen. apply le_n.
  - simpl fst. simpl snd.
    split; [ | split; [ | split ] ].
    + split; [ congruence | ].
      intros H. apply Hfire in H. discriminate.
    + congruence.
    + reflexivity.
    + simpl. lia.
Qed.

(** The stop-loss case of the script's settings: no alert sent yet, the
    price at 1.50 under a stop-loss of 2.00, one hour after the epoch: an
    alert is sent and [lastAlertTs] becomes [now]. *)
Lemma maybeAlert_correct_witness :
  ENABLE_ALERTS default_config = true
  /\ fst (maybeAlert default_config 3600000%float 0%float 1.5%float) <> []
  /\ snd (maybeAlert default_config 3600000%float 0%float 1.5%float)
     = 3600000%float.
Proof.
  split; [ reflexivity | ].
  destruct (maybeAlert_correct default_config 3600000%float 0%float 1.5%float
              eq_refl) as (Hiff & Hsent & _ & _).
  assert (Hfired :
    fst (maybeAlert default_config 3600000%float 0%float 1.5%float) <> []).
  { apply Hiff. split; [ left; split | ]; reflexivity. }
  split; [ exact Hfired | ].
  destruct (Hsent Hfired) as (text & _ & _ & _ & _ & Hts). exact Hts.
Defined.

(** The script's settings, no alert sent yet: a price of 1.50 one hour after
    the epoch fires the stop-loss alert; a price of 1.40 one second later is
    inside the cooldown and sends nothing. *)
Example maybeAlert_cooldown :
  maybeAlert default_config 3600000%float 0%float 1.5%float
  = ([Notify "FIL Target Alert"
        (HitStopLoss (Fixed 2 1.5%float) (Fixed 2 2%float))],
     3600000%float)
  /\ maybeAlert default_config 3601000%float 3600000%float 1.4%float
     = ([], 3600000%float).
Proof. split; reflexivity. Qed.

(** ** External quantity refresher *)

Section QuantityCache.

Variable cfg : config.

Lemma fallback_keeps (c : number) :
  cache_valid c -> (if isFinite c then c else NaN) = c.
Proof.
  intros [-> | [Hf _]]; [ reflexivity | rewrite Hf; reflexivity ].
Qed.

Lemma refreshQty_valid balance (c : number) :
  cache_valid c -> cache_valid (refreshQty cfg balance c).
Proof.
  intros Hc. unfold refreshQty, fetchExodusQtyFIL.
  destruct (USE_EXODUS_BALANCE cfg); simpl; [ | left; reflexivity ].
  destruct (addresses cfg) as [| a rest]; [ left; reflexivity | ].
  destruct (isFinite (round_total cfg balance)) eqn:Ef; simpl.
  - destruct (le (round_total cfg balance) 0%float) eqn:El; simpl.
    + rewrite fallback_keeps; assumption.
    + right. split; assumption.
  - rewrite fallback_keeps; assumption.
Qed.

Lemma cache_reachable_valid (c : number) :
  cache_reachable cfg c -> cache_valid c.
Proof.
  induction 1 as [| balance c _ IH].
  - left. reflexivity.
  - apply refreshQty_valid, IH.
Qed.

Lemma cache_valid_not_zero (c : number) :
  cache_valid c -> strict_eq c 0%float = false.
Proof.
  intros [-> | [_ Hle]]; [ reflexivity | now apply not_le_zero_not_zero ].
Qed.

(** Without balances or without addresses no round ever succeeds: the cache
    stays at NaN. *)
Lemma cache_reachable_off (c : number) :
  USE_EXODUS_BALANCE cfg = false \/ addresses cfg = [] ->
  cache_reachable cfg c -> c = NaN.
Proof.
  intros Hoff. induction 1 as [| balance c _ IH]; [ reflexivity | ].
  unfold refreshQty, fetchExodusQtyFIL.
  destruct Hoff as [-> | Hnil]; [ reflexivity | ].
  rewrite Hnil. destruct (USE_EXODUS_BALANCE cfg); reflexivity.
Qed.

End QuantityCache.

(** C4. In a refresh round whose sum is unavailable (balances switched off,
    no address, or a total of the finite per-address results that is not a
    finite positive number), [fetchExodusQtyFIL] returns the cached quantity
    and leaves the cache as it was, for every value the cache can hold; the
    assignment of [refreshQty] then writes the same value back; the value
    returned is never zero.  With the script's settings, a cache holding 42
    after a successful round and a round in which every lookup fails (NaN),
    the result is 42. *)
Theorem fetchExodusQtyFIL_stale_cache (cfg : config)
  (balance : nat -> string -> number) (cachedQty : number) :
  cache_reachable cfg cachedQty ->
  round_unavailable cfg balance = true ->
  fetchExodusQtyFIL cfg balance cachedQty = (cachedQty, cachedQty)
  /\ refreshQty cfg balance cachedQty = cachedQty
  /\ strict_eq (fst (fetchExodusQtyFIL cfg balance cachedQty)) 0%float = false
  /\ (refreshQty default_config (fun _ _ => 42%float) NaN = 42%float
      /\ fetchExodusQtyFIL default_config (fun _ _ => NaN) 42%float
         = (42%float, 42%float)).
Proof.
  intros Hreach Hround.
  pose proof (cache_reachable_valid cfg cachedQty Hreach) as Hvalid.
  assert (E : fetchExodusQtyFIL cfg balance cachedQty
              = (cachedQty, cachedQty)).
  { unfold round_unavailable in Hround. unfold fetchExodusQtyFIL.
    destruct (USE_EXODUS_BALANCE cfg) eqn:Euse; simpl in *.
    - destruct (addresses cfg) as [| a rest] eqn:Eaddr.
      + rewrite (cache_reachable_off cfg cachedQty (or_intror Eaddr) Hreach).
        reflexivity.
      + simpl in Hround. rewrite Hround.
        rewrite fallback_keeps by exact Hvalid. reflexivity.
    - rewrite (cache_reachable_off cfg cachedQty (or_introl Euse) Hreach).
      reflexivity. }
  unfold refreshQty. rewrite E. simpl fst.
  split; [ reflexivity | split; [ reflexivity | split ] ].
  - now apply cache_valid_not_zero.
  - split; reflexivity.
Qed.

(** The round of the example: the script's settings, a cache at 42 left by
    a round that found 42, then a round in which every lookup fails. *)
Lemma fetchExodusQtyFIL_stale_cache_witness :
  cache_reachable default_config 42%float
  /\ round_unavailable default_config (fun _ _ => NaN) = true
  /\ fetchExodusQtyFIL default_config (fun _ _ => NaN) 42%float
     = (42%float, 42%float).
Proof.
  assert (Hreach : cache_reachable default_config 42%float).
  { exact (cache_refreshed default_config (fun _ _ => 42%float) NaN
             (cache_initial default_config)). }
  split; [ exact Hreach | split; [ reflexivity | ] ].
  exact (proj1 (fetchExodusQtyFIL_stale_cache default_config
                  (fun _ _ => NaN) 42%float Hreach eq_refl)).
Defined.

(** ** Metrics and page *)

Section Formatting.






End Formatting.




(** ** Price feeds *)

Section Feeds.

Variable cfg : config.
Variable now : number.

(** A handler either leaves the state alone or accepts a finite price. *)
Lemma on_px_cases (px : option number) (st : feed) :
  on_px cfg now px st = st
  \/ exists x, px = Some x /\ isFinite x = true
               /\ on_px cfg now px st = accept cfg now x st.
Proof.
  destruct px as [x |]; simpl; [ | left; reflexivity ].
  destruct (isFinite x) eqn:E; [ right; exists x; auto | left; reflexivity ].
Qed.

Lemma on_px_nonfinite (x : number) (st : feed) :
  isFinite x = false -> on_px cfg now (Some x) st = st.
Proof. intros H. simpl. rewrite H. reflexivity. Qed.

Lemma Forall_lastn {A} (P : A -> Prop) (n : nat) (xs : list A) :
  Forall P xs -> Forall P (lastn n xs).
Proof.
  unfold lastn. generalize (length xs - n)%nat as k.
  intros k H. revert k. induction H as [| x xs Hx Hxs IH]; intros [| k];
    simpl; auto.
Qed.

Lemma on_px_finite (px : option number) (st : feed) :
  feed_finite st -> feed_finite (on_px cfg now px st).
Proof.
  intros [Hlast Hbuf].
  destruct (on_px_cases px st) as [-> | (x & _ & Hx & ->)];
    [ split; assumption | ].
  split; simpl.
  - right. exact Hx.
  - rewrite pushPrice_lastn. apply Forall_lastn, Forall_app.
    split; [ exact Hbuf | ]. constructor; [ exact Hx | constructor ].
Qed.

End Feeds.

Lemma feed_step_finite (cfg : config) (st : feed) (ev : feed_event) :
  feed_finite st -> feed_finite (feed_step cfg st ev).
Proof. destruct ev; apply on_px_finite. Qed.

Lemma feed_run_finite (cfg : config) (evs : list feed_event) :
  feed_finite (feed_run cfg evs).
Proof.
  unfold feed_run.
  assert (H : feed_finite initial_feed).
  { split; [ left; reflexivity | constructor ]. }
  revert H. generalize initial_feed as st.
  induction evs as [| ev evs IH]; intros st H; simpl; [ exact H | ].
  apply IH, feed_step_finite, H.
Qed.

Lemma on_px_accepts (cfg : config) (now x : number) (st : feed) :
  isFinite x = true -> on_px cfg now (Some x) st = accept cfg now x st.
Proof. intros H. simpl. rewrite H. reflexivity. Qed.

Lemma finite_nonzero_truthy (x : number) :
  isFinite x = true -> strict_eq x 0%float = false ->
  ToBoolean (Num x) = true.
Proof.
  unfold isFinite, is_finite, strict_eq. intros Hf Hz. simpl.
  rewrite Hz. destruct (is_nan x); [ discriminate | reflexivity ].
Qed.

Lemma zero_falsy (x : number) :
  strict_eq x 0%float = true -> ToBoolean (Num x) = false.
Proof.
  unfold strict_eq. intros Hz. simpl. rewrite Hz, orb_true_r. reflexivity.
Qed.

(** C6, as the script has it.  Whatever a link receives, either the state is
    left as it was or the price it extracted is finite, becomes [lastPrice]
    and is appended to the buffer with [pushPrice]; hence after any sequence
    of messages and polls every buffered price is finite and [lastPrice] is
    finite or still the initial NaN.  The sign of the price is not tested
    by any of the three links: a Coinbase ticker for [FIL-USD] with a truthy
    price, a Kraken array whose second element has a truthy [c] with a
    truthy first element, and a polling round that comes to a number are
    accepted as soon as the number is finite.  So every finite number a
    REST provider answers is stored, zero and the negative numbers with the
    others; on both sockets every finite JSON number other than zero is
    stored, the negative numbers with the others, and so are the texts [0]
    and [-1]; the JSON number zero alone is ignored there, being falsy. *)
Theorem accepted_price_finite (cfg : config) (now : number) (st : feed) :
  let accepted (px : option number) (st' : feed) :=
    st' = st
    \/ exists x,
         px = Some x /\ isFinite x = true
         /\ lastPrice st' = x
         /\ priceBuffer st'
            = pushPrice (BUF_MAX_POINTS cfg) (priceBuffer st) now x in
  (forall m, accepted (coinbase_px m) (coinbase_onmessage cfg now m st))
  /\ (forall m, accepted (kraken_px m) (kraken_onmessage cfg now m st))
  /\ (forall r1 r2 r3,
        accepted (poll_px cfg r1 r2 r3) (poll cfg now r1 r2 r3 st))
  /\ (forall evs, feed_finite (feed_run cfg evs))
  /\ (forall fields price,
        lookup "type" fields = Str "ticker" ->
        lookup "product_id" fields = Str "FIL-USD" ->
        lookup "price" fields = price ->
        ToBoolean price = true -> isFinite (ToNumber price) = true ->
        coinbase_onmessage cfg now (Obj fields) st
        = accept cfg now (ToNumber price) st)
  /\ (forall items fields c,
        nth 1 items Undefined = Obj fields ->
        lookup "c" fields = c ->
        ToBoolean c = true -> ToBoolean (getFirst c) = true ->
        isFinite (ToNumber (getFirst c)) = true ->
        kraken_onmessage cfg now (Arr items) st
        = accept cfg now (ToNumber (getFirst c)) st)
  /\ (forall r1 r2 r3 x,
        poll_px cfg r1 r2 r3 = Some x -> isFinite x = true ->
        poll cfg now r1 r2 r3 st = accept cfg now x st)
  /\ (forall x, isFinite x = true ->
        (PRICE_SOURCE cfg = "coinbase"%string ->
         forall r2 r3,
           poll cfg now (Picked (Num x)) r2 r3 st = accept cfg now x st)
        /\ (PRICE_SOURCE cfg <> "coinbase"%string ->
            forall r1 r3,
              poll cfg now r1 (Picked (Num x)) r3 st = accept cfg now x st))
  /\ (forall x, isFinite x = true -> strict_eq x 0%float = false ->
        coinbase_onmessage cfg now (ticker (Num x)) st = accept cfg now x st
        /\ kraken_onmessage cfg now (kraken_ticker (Num x)) st
           = accept cfg now x st)
  /\ (forall x, strict_eq x 0%float = true ->
        coinbase_onmessage cfg now (ticker (Num x)) st = st
        /\ kraken_onmessage cfg now (kraken_ticker (Num x)) st = st)
  /\ (coinbase_onmessage cfg now (ticker (Str "0")) st
      = accept cfg now 0%float st
      /\ coinbase_onmessage cfg now (ticker (Str "-1")) st
         = accept cfg now (-1)%float st
      /\ kraken_onmessage cfg now (kraken_ticker (Str "0")) st
         = accept cfg now 0%float st
      /\ kraken_onmessage cfg now (kraken_ticker (Str "-1")) st
         = accept cfg now (-1)%float st).
Proof.
  cbv zeta.
  assert (H : forall px,
    on_px cfg now px st = st
    \/ exists x,
         px = Some x /\ isFinite x = true
         /\ lastPrice (on_px cfg now px st) = x
         /\ priceBuffer (on_px cfg now px st)
            = pushPrice (BUF_MAX_POINTS cfg) (priceBuffer st) now x).
  { intros px. destruct (on_px_cases cfg now px st) as [E | (x & E1 & E2 & E3)].
    - left. exact E.
    - right. exists x. rewrite E3. repeat split; assumption. }
  assert (Hcb : forall fields price,
    lookup "type" fields = Str "ticker" ->
    lookup "product_id" fields = Str "FIL-USD" ->
    lookup "price" fields = price ->
    ToBoolean price = true -> isFinite (ToNumber price) = true ->
    coinbase_onmessage cfg now (Obj fields) st
    = accept cfg now (ToNumber price) st).
  { intros fields price Ety Epr Eprice Ht Hf.
    unfold coinbase_onmessage, coinbase_px. cbn [getField].
    rewrite Ety, Epr, Eprice. cbn [is_string]. rewrite !String.eqb_refl.
    cbn [andb]. rewrite Ht. now apply on_px_accepts. }
  assert (Hkr : forall items fields c,
    nth 1 items Undefined = Obj fields ->
    lookup "c" fields = c ->
    ToBoolean c = true -> ToBoolean (getFirst c) = true ->
    isFinite (ToNumber (getFirst c)) = true ->
    kraken_onmessage cfg now (Arr items) st
    = accept cfg now (ToNumber (getFirst c)) st).
  { intros items fields c E1 Ec Hc Hv Hf.
    unfold kraken_onmessage, kraken_px. cbv zeta. rewrite E1.
    cbn [ToBoolean getField]. rewrite Ec, Hc, Hv. cbn [andb].
    now apply on_px_accepts. }
  assert (Hpoll : forall r1 r2 r3 x,
    poll_px cfg r1 r2 r3 = Some x -> isFinite x = true ->
    poll cfg now r1 r2 r3 st = accept cfg now x st).
  { intros r1 r2 r3 x E Hf. unfold poll. rewrite E.
    now apply on_px_accepts. }
  split; [ intros; apply H | ].
  split; [ intros; apply H | ].
  split; [ intros; apply H | ].
  split; [ intros; apply feed_run_finite | ].
  split; [ exact Hcb | ].
  split; [ exact Hkr | ].
  split; [ exact Hpoll | ].
  split; [ | split; [ | split ] ].
  - intros x Hf. split.
    + intros Esrc r2 r3. apply Hpoll; [ | exact Hf ].
      unfold poll_px. rewrite Esrc. cbn [String.eqb Ascii.eqb Bool.eqb andb].
      cbn [getJsonNum ToNumber].
      do 3 (rewrite ?Hf; cbn [negb]; cbv iota). reflexivity.
    + intros Esrc r1 r3. apply Hpoll; [ | exact Hf ].
      unfold poll_px.
      destruct (String.eqb_spec (PRICE_SOURCE cfg) "coinbase");
        [ contradiction | ].
      change (negb (isFinite NaN)) with true. cbv iota.
      cbn [getJsonNum ToNumber].
      do 3 (rewrite ?Hf; cbn [negb]; cbv iota). reflexivity.
  - intros x Hf Hz.
    pose proof (finite_nonzero_truthy x Hf Hz) as Ht.
    split.
    + apply (Hcb _ (Num x)); try reflexivity; assumption.
    + apply (Hkr _ [("c"%string, Arr [Num x; Str "1"])]
               (Arr [Num x; Str "1"])); try reflexivity; assumption.
  - intros x Hz. pose proof (zero_falsy x Hz) as Ht.
    unfold coinbase_onmessage, kraken_onmessage.
    split.
    + change (coinbase_px (ticker (Num x)))
        with (if ToBoolean (Num x) then Some (ToNumber (Num x)) else None).
      rewrite Ht. reflexivity.
    + change (kraken_px (kraken_ticker (Num x)))
        with (if ToBoolean (Num x) then Some (ToNumber (Num x)) else None).
      rewrite Ht. reflexivity.
  - split; [ | split; [ | split ] ].
    + apply (Hcb _ (Str "0")); reflexivity.
    + apply (Hcb _ (Str "-1")); reflexivity.
    + apply (Hkr _ [("c"%string, Arr [Str "0"; Str "1"])]
               (Arr [Str "0"; Str "1"])); reflexivity.
    + apply (Hkr _ [("c"%string, Arr [Str "-1"; Str "1"])]
               (Arr [Str "-1"; Str "1"])); reflexivity.
Qed.

(** A REST answer of [-1] under the script's settings, and a Kraken ticker
    whose price is the number [-2.5]. *)
Lemma accepted_price_finite_witness :
  isFinite (-1)%float = true
  /\ PRICE_SOURCE default_config = "coinbase"%string
  /\ poll default_config 7%float (Picked (Num (-1)%float)) NotOk NotOk
       initial_feed
     = Feed (-1)%float [Sample.make 7%float (-1)%float]
  /\ isFinite (-2.5)%float = true
  /\ strict_eq (-2.5)%float 0%float = false
  /\ kraken_onmessage default_config 7%float
       (kraken_ticker (Num (-2.5)%float)) initial_feed
     = Feed (-2.5)%float [Sample.make 7%float (-2.5)%float].
Proof.
  destruct (accepted_price_finite default_config 7%float initial_feed)
    as (_ & _ & _ & _ & _ & _ & _ & Hrest & Hnum & _).
  split; [ reflexivity | split; [ reflexivity | split ] ].
  - exact (proj1 (Hrest (-1)%float eq_refl) eq_refl NotOk NotOk).
  - split; [ reflexivity | split; [ reflexivity | ] ].
    exact (proj2 (Hnum (-2.5)%float eq_refl eq_refl)).
Defined.

(** C6 as stated fails: a ticker whose price is the text [-1], or the text
    [0], is accepted by the Coinbase handler, and so is a REST answer of
    [-1]; the price stored is not positive. *)
Lemma nonpositive_price_accepted :
  lastPrice
    (coinbase_onmessage default_config 7%float (ticker (Str "-1")) initial_feed)
  = (-1)%float
  /\ priceBuffer
       (coinbase_onmessage default_config 7%float (ticker (Str "-1"))
          initial_feed)
     = [Sample.make 7%float (-1)%float]
  /\ lastPrice
       (coinbase_onmessage default_config 7%float (ticker (Str "0"))
          initial_feed)
     = 0%float
  /\ lastPrice
       (poll default_config 7%float (Picked (Num (-1)%float)) NotOk NotOk
          initial_feed)
     = (-1)%float
  /\ le (-1)%float 0%float = true
  /\ le 0%float 0%float = true.
Proof. repeat split; vm_compute; reflexivity. Qed.

(** C8, as the script has it.  [pushPrice] appends whatever price it is
    given; the three callers test [Number.isFinite] before they write: when
    the number a link extracted is not finite, [lastPrice] and the buffer are
    left as they were. *)
Theorem nonfinite_price_dropped (cfg : config) (now : number) (st : feed) :
  (forall b t p,
     pushPrice (BUF_MAX_POINTS cfg) b t p
     = lastn (BUF_MAX_POINTS cfg) (b ++ [Sample.make t p]))
  /\ (forall m x, coinbase_px m = Some x -> isFinite x = false ->
                  coinbase_onmessage cfg now m st = st)
  /\ (forall m x, kraken_px m = Some x -> isFinite x = false ->
                  kraken_onmessage cfg now m st = st)
  /\ (forall r1 r2 r3 x, poll_px cfg r1 r2 r3 = Some x -> isFinite x = false ->
                         poll cfg now r1 r2 r3 st = st).
Proof.
  split; [ intros; apply pushPrice_lastn | ].
  unfold coinbase_onmessage, kraken_onmessage, poll.
  split; [ | split ]; intros; rewrite H; now apply on_px_nonfinite.
Qed.

(** A ticker whose price is the text [Infinity]: the state is left alone. *)
Lemma nonfinite_price_dropped_witness :
  coinbase_px (ticker (Str "Infinity")) = Some infinity
  /\ isFinite infinity = false
  /\ coinbase_onmessage default_config 7%float (ticker (Str "Infinity"))
       (Feed 3%float [Sample.make 1%float 3%float])
     = Feed 3%float [Sample.make 1%float 3%float].
Proof.
  split; [ reflexivity | split; [ reflexivity | ] ].
  exact (proj1 (proj2 (nonfinite_price_dropped default_config 7%float
                         (Feed 3%float [Sample.make 1%float 3%float])))
           (ticker (Str "Infinity")) infinity eq_refl eq_refl).
Defined.

(** C8 as stated fails: [pushPrice] itself appends a NaN price. *)
Lemma pushPrice_appends_nan :
  pushPrice (BUF_MAX_POINTS default_config) [] 7%float NaN
  = [Sample.make 7%float NaN]
  /\ pushPrice (BUF_MAX_POINTS default_config) [] 7%float NaN <> [].
Proof. split; [ reflexivity | discriminate ]. Qed.

(** ** Lots *)

(** C9. For an entry with a valid price and a [qty] field (one that is not
    [null] or [undefined]), normalization reads [qty]: a finite positive
    [qty] gives the lot [{qty, usd: qty * price, price}], any other [qty]
    drops the entry; in both cases the [usd] field is not read, so the
    result is the same whatever [usd] holds. *)
Theorem normalizeLots_qty_precedence (l : lot_entry)
  (rest : list lot_entry) :
  let price := ToNumber (entry_price l) in
  let qty := ToNumber (entry_qty l) in
  isFinite price = true ->
  le price 0%float = false ->
  is_nullish (entry_qty l) = false ->
  normalizeLots (l :: rest)
  = (if isFinite qty && negb (le qty 0%float)
     then [Lot.make qty (qty * price)%float price (or_else (entry_ts l) Null)]
     else [])
    ++ normalizeLots rest
  /\ forall usd' : value,
       normalizeLots
         (LotEntry (entry_price l) (entry_qty l) usd' (entry_ts l) :: rest)
       = normalizeLots (l :: rest).
Proof.
  cbv zeta. intros Hf Hp Hq.
  split.
  - simpl. rewrite Hf, Hp, Hq. simpl.
    destruct (isFinite (ToNumber (entry_qty l))); simpl; [ | reflexivity ].
    destruct (le (ToNumber (entry_qty l)) 0%float); reflexivity.
  - intros usd'. simpl. rewrite Hf, Hp, Hq. reflexivity.
Qed.

(** The entry [{qty: 10, usd: 999, price: 4}]: the lot costs 40, not 999. *)
Lemma normalizeLots_qty_precedence_witness :
  isFinite 4%float = true
  /\ le 4%float 0%float = false
  /\ normalizeLots
       [LotEntry (Num 4%float) (Num 10%float) (Num 999%float) Undefined]
     = [Lot.make 10%float 40%float 4%float Null].
Proof.
  split; [ reflexivity | split; [ reflexivity | ] ].
  exact (proj1 (normalizeLots_qty_precedence
                  (LotEntry (Num 4%float) (Num 10%float) (Num 999%float)
                     Undefined)
                  [] eq_refl eq_refl eq_refl)).
Defined.

(** ** Unit conversion *)

Section Strings.

Lemma all_chars_app f a b :
  all_chars f (a ++ b)%string = all_chars f a && all_chars f b.
Proof.
  induction a as [| c a IH]; simpl; [ reflexivity | ].
  rewrite IH, andb_assoc. reflexivity.
Qed.

Lemma all_chars_impl (f g : ascii -> bool) s :
  (forall c, f c = true -> g c = true) ->
  all_chars f s = true -> all_chars g s = true.
Proof.
  intros H. induction s as [| c s IH]; simpl; [ reflexivity | ].
  rewrite !andb_true_iff. intros [Hc Hs]. auto.
Qed.

Lemma char_differs (f : ascii -> bool) (c d : ascii) :
  f c = true -> f d = false -> (c =? d)%char = false.
Proof.
  intros Hc Hd. destruct (Ascii.eqb_spec c d) as [-> | _]; congruence.
Qed.

Lemma digit_not_space c : is_digit c = true -> is_space c = false.
Proof.
  unfold is_digit, is_space. rewrite andb_true_iff, !Nat.leb_le.
  intros [H1 H2].
  destruct (Nat.leb_spec 9 (code c)), (Nat.leb_spec (code c) 13),
    (Nat.eqb_spec (code c) 32); simpl; try reflexivity; lia.
Qed.

Lemma lit_not_space c : is_lit c = true -> not_space c = true.
Proof.
  unfold is_lit, not_space. rewrite orb_true_iff. intros [H | H].
  - rewrite digit_not_space; auto.
  - apply Ascii.eqb_eq in H. subst c. reflexivity.
Qed.

Lemma trim_left_id c r : is_space c = false -> trim_left (String c r) = String c r.
Proof. intros H. simpl. rewrite H. reflexivity. Qed.

Lemma trim_right_id s : all_chars not_space s = true -> trim_right s = s.
Proof.
  induction s as [| c s IH]; simpl; [ reflexivity | ].
  unfold not_space at 1. rewrite andb_true_iff, negb_true_iff.
  intros [Hc Hs]. rewrite IH, Hc by assumption. reflexivity.
Qed.

Lemma trim_id c r :
  all_chars not_space (String c r) = true -> trim (String c r) = String c r.
Proof.
  intros H. unfold trim. rewrite trim_left_id.
  - now apply trim_right_id.
  - simpl in H. apply andb_true_iff in H. destruct H as [H _].
    now apply negb_true_iff in H.
Qed.

Lemma span_digits_all s :
  all_chars is_digit s = true -> span_digits s = (s, EmptyString).
Proof.
  induction s as [| c s IH]; simpl; [ reflexivity | ].
  rewrite andb_true_iff. intros [Hc Hs]. rewrite Hc, IH by assumption.
  reflexivity.
Qed.

Lemma span_digits_stop i c r :
  all_chars is_digit i = true -> is_digit c = false ->
  span_digits (i ++ String c r) = (i, String c r).
Proof.
  intros Hi Hc. induction i as [| d i IH]; simpl.
  - rewrite Hc. reflexivity.
  - simpl in Hi. apply andb_true_iff in Hi. destruct Hi as [Hd Hi].
    rewrite Hd, IH by assumption. reflexivity.
Qed.

Lemma digits_acc_app acc a b :
  digits_acc acc (a ++ b) = digits_acc (digits_acc acc a) b.
Proof.
  revert acc. induction a as [| c a IH]; intros acc; simpl; auto.
Qed.

Lemma digits_acc_shift acc s :
  (digits_acc acc s = acc * 10 ^ Z.of_nat (String.length s) + digits_value s)%Z.
Proof.
  unfold digits_value. revert acc.
  induction s as [| c s IH]; intros acc.
  - simpl. lia.
  - cbn [digits_acc String.length]. rewrite (IH (10 * acc + digit_val c)%Z).
    rewrite (IH (10 * 0 + digit_val c)%Z).
    rewrite Nat2Z.inj_succ, Z.pow_succ_r by lia. ring.
Qed.

Lemma digits_value_app a b :
  (digits_value (a ++ b)
   = digits_value a * 10 ^ Z.of_nat (String.length b) + digits_value b)%Z.
Proof.
  unfold digits_value at 1. rewrite digits_acc_app.
  apply digits_acc_shift.
Qed.

Lemma length_repeat_char c n : String.length (repeat_char c n) = n.
Proof. induction n; simpl; congruence. Qed.

Lemma all_digits_zeros n : all_chars is_digit (repeat_char "0" n) = true.
Proof. induction n; simpl; auto. Qed.

Lemma digits_value_zeros n s :
  digits_value (repeat_char "0" n ++ s) = digits_value s.
Proof.
  unfold digits_value. induction n; simpl; auto.
Qed.

Lemma string_length_app (a b : string) :
  String.length (a ++ b) = (String.length a + String.length b)%nat.
Proof. induction a; simpl; congruence. Qed.

Lemma strip_leading_zeros_digits s :
  all_chars is_digit s = true ->
  all_chars is_digit (strip_leading_zeros s) = true
  /\ digits_value (strip_leading_zeros s) = digits_value s.
Proof.
  induction s as [| c s IH]; simpl; [ auto | ].
  rewrite andb_true_iff. intros [Hc Hs].
  destruct (Ascii.eqb_spec c "0") as [-> | _].
  - destruct (IH Hs) as [H1 H2]. split; [ exact H1 | exact H2 ].
  - simpl. rewrite Hc, Hs. auto.
Qed.

Lemma substring_all f n m s :
  all_chars f s = true -> all_chars f (substring n m s) = true.
Proof.
  revert n m. induction s as [| c s IH]; intros n m H.
  - destruct n, m; reflexivity.
  - simpl in H. apply andb_true_iff in H. destruct H as [Hc Hs].
    destruct n as [| n].
    + destruct m as [| m]; simpl; [ reflexivity | ].
      rewrite Hc. now apply IH.
    + simpl. now apply IH.
Qed.

Lemma substring_full s : substring 0 (String.length s) s = s.
Proof. induction s as [| c s IH]; simpl; congruence. Qed.

Lemma substring_split k s :
  (k <= String.length s)%nat ->
  (substring 0 k s ++ substring k (String.length s - k) s)%string = s.
Proof.
  revert k. induction s as [| c s IH]; intros k H.
  - simpl in H. replace k with 0%nat by lia. reflexivity.
  - destruct k as [| k].
    + rewrite Nat.sub_0_r, substring_full. reflexivity.
    + simpl in H. cbn [substring String.length Nat.sub append].
      f_equal. apply IH. lia.
Qed.

Lemma length_substring_prefix k s :
  (k <= String.length s)%nat -> String.length (substring 0 k s) = k.
Proof.
  revert k. induction s as [| c s IH]; intros k H.
  - simpl in H. replace k with 0%nat by lia. reflexivity.
  - destruct k as [| k]; [ reflexivity | ].
    simpl in *. f_equal. apply IH. lia.
Qed.


Lemma digit_is_lit c : is_digit c = true -> is_lit c = true.
Proof. unfold is_lit. intros ->. reflexivity. Qed.

(** A literal [i.f] with digits on both sides of the point. *)
Lemma StringToNumber_decimal i f :
  all_chars is_digit i = true -> all_chars is_digit f = true ->
  is_empty i = false ->
  StringToNumber (i ++ String "." f)
  = of_scaled false (digits_value (i ++ f)) (- Z.of_nat (String.length f)).
Proof.
  intros Hi Hf Hne.
  destruct i as [| c0 i']; [ discriminate | ].
  assert (Hc0 : is_digit c0 = true).
  { simpl in Hi. now apply andb_true_iff in Hi. }
  assert (Hlit : all_chars is_lit (String c0 i' ++ String "." f) = true).
  { rewrite all_chars_app. apply andb_true_iff. split.
    - revert Hi. apply all_chars_impl, digit_is_lit.
    - simpl. revert Hf. apply all_chars_impl, digit_is_lit. }
  unfold StringToNumber.
  change (String c0 i' ++ String "." f)%string
    with (String c0 (i' ++ String "." f)) in *.
  rewrite trim_id by (revert Hlit; apply all_chars_impl, lit_not_space).
  cbn [is_empty].
  assert (Hradix : parse_radix (String c0 (i' ++ String "." f)) = None).
  { unfold parse_radix.
    destruct (i' ++ String "." f)%string as [| c1 r] eqn:E; [ reflexivity | ].
    assert (Hc1 : is_lit c1 = true).
    { try rewrite E in Hlit. simpl in Hlit.
      apply andb_true_iff in Hlit. destruct Hlit as [_ Hlit].
      now apply andb_true_iff in Hlit. }
    rewrite !(char_differs is_lit c1) by (exact Hc1 || reflexivity).
    reflexivity. }
  rewrite Hradix.
  unfold split_sign.
  rewrite !(char_differs is_digit c0) by (exact Hc0 || reflexivity).
  cbn [String.eqb].
  rewrite (char_differs is_digit c0 "I") by (exact Hc0 || reflexivity).
  cbn [andb].
  unfold parse_unsigned_decimal.
  change (String c0 (i' ++ String "." f)) with (String c0 i' ++ String "." f)%string.
  rewrite span_digits_stop by (exact Hi || reflexivity).
  change ("." =? ".")%char with true. cbv iota.
  rewrite span_digits_all by exact Hf.
  cbn [is_empty andb parse_exponent].
  f_equal.
Qed.

Lemma strip_empty_value s :
  strip_leading_zeros s = EmptyString -> all_chars is_digit s = true ->
  digits_value s = 0%Z.
Proof.
  intros E H. destruct (strip_leading_zeros_digits s H) as [_ <-].
  rewrite E. reflexivity.
Qed.

(** The literal [attoToFIL] hands to [Number]: the digits split 18 places
    from the right. *)
Lemma attoToFIL_literal s :
  all_chars is_digit s = true ->
  strip_leading_zeros s <> EmptyString ->
  exists intPart frac,
    all_chars is_digit intPart = true
    /\ is_empty intPart = false
    /\ all_chars is_digit frac = true
    /\ String.length frac = 18%nat
    /\ digits_value (intPart ++ frac) = digits_value s
    /\ attoToFIL s = StringToNumber (intPart ++ String "." frac).
Proof.
  intros Hs Hne.
  destruct (strip_leading_zeros_digits s Hs) as [Hd Hv].
  unfold attoToFIL.
  set (z := strip_leading_zeros s) in *.
  destruct (Nat.eqb_spec (String.length z) 0) as [E0 | _].
  { destruct z; [ congruence | discriminate ]. }
  destruct (Nat.leb_spec (String.length z) 18) as [Hle | Hgt].
  - exists "0"%string, (padStart 18 "0" z).
    unfold padStart.
    split; [ reflexivity | split; [ reflexivity | split; [ | split; [ | split ] ] ] ].
    + rewrite all_chars_app, all_digits_zeros, Hd. reflexivity.
    + rewrite string_length_app, length_repeat_char. lia.
    + change ("0" ++ (repeat_char "0" (18 - String.length z) ++ z))%string
        with (repeat_char "0" (S (18 - String.length z)) ++ z)%string.
      rewrite digits_value_zeros. exact Hv.
    + reflexivity.
  - exists (substring 0 (String.length z - 18) z),
           (substring (String.length z - 18) 18 z).
    assert (Hsplit :
      (substring 0 (String.length z - 18) z
       ++ substring (String.length z - 18) 18 z)%string = z).
    { pose proof (substring_split (String.length z - 18) z ltac:(lia)) as H.
      replace (String.length z - (String.length z - 18))%nat with 18%nat in H
        by lia.
      exact H. }
    assert (Hlen :
      String.length (substring 0 (String.length z - 18) z)
      = (String.length z - 18)%nat).
    { apply length_substring_prefix. lia. }
    split; [ now apply substring_all | ].
    split; [ | split; [ now apply substring_all | split; [ | split ] ] ].
    + destruct (substring 0 (String.length z - 18) z);
        [ simpl in Hlen; lia | reflexivity ].
    + pose proof (f_equal String.length Hsplit) as H.
      rewrite string_length_app, Hlen in H. lia.
    + rewrite Hsplit. exact Hv.
    + reflexivity.
Qed.

End Strings.

(** C7. For a string of digits, [attoToFIL] is the Number nearest to the
    integer the string writes (of any length, as an exact integer) divided by
    [10 ^ 18]: a single rounding of the exact quotient.  When that integer is
    not zero, the value comes from one numeric literal, whose integer and
    fractional parts are digit strings cut by slicing, the fraction having
    18 digits.  The texts [1500000000000000000] and [5] give 1.5 and
    0.000000000000000005. *)
Theorem attoToFIL_exact (s : string) :
  all_chars is_digit s = true ->
  attoToFIL s = of_scaled false (digits_value s) (-18)
  /\ (digits_value s <> 0%Z ->
      exists intPart frac,
        all_chars is_digit intPart = true
        /\ all_chars is_digit frac = true
        /\ String.length frac = 18%nat
        /\ (digits_value s
            = digits_value intPart * 10 ^ 18 + digits_value frac)%Z
        /\ attoToFIL s = StringToNumber (intPart ++ "." ++ frac))
  /\ attoToFIL "1500000000000000000" = 1.5%float
  /\ attoToFIL "5" = 0.000000000000000005%float.
Proof.
  intros Hs.
  assert (Hlit :
    strip_leading_zeros s <> EmptyString ->
    exists intPart frac,
      all_chars is_digit intPart = true
      /\ all_chars is_digit frac = true
      /\ String.length frac = 18%nat
      /\ (digits_value s
          = digits_value intPart * 10 ^ 18 + digits_value frac)%Z
      /\ attoToFIL s = StringToNumber (intPart ++ "." ++ frac)
      /\ attoToFIL s = of_scaled false (digits_value s) (-18)).
  { intros Hne.
    destruct (attoToFIL_literal s Hs Hne)
      as (i & f & Hi & Hie & Hf & Hlen & Hv & E).
    exists i, f. repeat split; try assumption.
    - rewrite <- Hv, digits_value_app, Hlen. reflexivity.
    - rewrite E, StringToNumber_decimal, Hv, Hlen by assumption.
      reflexivity. }
  split; [ | split; [ | split; vm_compute; reflexivity ] ].
  - destruct (strip_leading_zeros s) eqn:E.
    + rewrite (strip_empty_value s E Hs). unfold attoToFIL. rewrite E.
      reflexivity.
    + destruct Hlit as (i & f & _ & _ & _ & _ & _ & H); [ discriminate | ].
      exact H.
  - intros Hnz.
    destruct Hlit as (i & f & H1 & H2 & H3 & H4 & H5 & _).
    + intros E. apply Hnz. now apply strip_empty_value.
    + exists i, f. auto.
Qed.

(** The conversion of [1500000000000000000]. *)
Lemma attoToFIL_exact_witness :
  all_chars is_digit "1500000000000000000" = true
  /\ attoToFIL "1500000000000000000"
     = of_scaled false 1500000000000000000 (-18).
Proof.
  split; [ reflexivity | ].
  exact (proj1 (attoToFIL_exact "1500000000000000000" eq_refl)).
Defined.

Lemma strip_leading_zeros_zeros (s : string) :
  all_chars is_zero_digit s = true -> strip_leading_zeros s = EmptyString.
Proof.
  induction s as [| c s IH]; simpl; [ reflexivity | ].
  unfold is_zero_digit at 1. rewrite andb_true_iff. intros [Hc Hs].
  rewrite Hc. now apply IH.
Qed.

Lemma strip_leading_zeros_split (r : string) :
  exists n,
    r = (repeat_char "0" n ++ strip_leading_zeros r)%string
    /\ match strip_leading_zeros r with
       | String c _ => is_zero_digit c = false
       | EmptyString => True
       end.
Proof.
  induction r as [| c r (n & E & Hhead)].
  - exists 0%nat. split; [ reflexivity | exact I ].
  - simpl. destruct (Ascii.eqb_spec c "0") as [-> | Hc].
    + exists (S n). split; [ simpl; f_equal; exact E | exact Hhead ].
    + exists 0%nat. split; [ reflexivity | ].
      unfold is_zero_digit. now apply Ascii.eqb_neq.
Qed.

Lemma strip_leading_zeros_empty (r : string) :
  strip_leading_zeros r = EmptyString -> all_chars is_zero_digit r = true.
Proof.
  induction r as [| c r IH]; simpl; [ reflexivity | ].
  unfold is_zero_digit at 1.
  destruct (c =? "0")%char; [ exact IH | discriminate ].
Qed.

(** C10. A string made of zero digits only (the empty string, [0], [000],
    ...) converts to exactly 0, because the leading zeros are stripped and
    nothing is left of it: stripping removes the longest run of zeros at
    the head of any string, and leaves nothing exactly when the string is
    made of zeros; and a string of which nothing is left converts to 0. *)
Theorem attoToFIL_zero (s : string) :
  all_chars is_zero_digit s = true ->
  attoToFIL s = 0%float
  /\ strip_leading_zeros s = EmptyString
  /\ (forall r : string,
        exists n,
          r = (repeat_char "0" n ++ strip_leading_zeros r)%string
          /\ match strip_leading_zeros r with
             | String c _ => is_zero_digit c = false
             | EmptyString => True
             end)
  /\ (forall r : string,
        strip_leading_zeros r = EmptyString
        <-> all_chars is_zero_digit r = true)
  /\ (forall r : string,
        strip_leading_zeros r = EmptyString -> attoToFIL r = 0%float).
Proof.
  intros H.
  assert (Hzero : forall r : string,
            strip_leading_zeros r = EmptyString -> attoToFIL r = 0%float).
  { intros r E. unfold attoToFIL. rewrite E. reflexivity. }
  pose proof (strip_leading_zeros_zeros s H) as E.
  split; [ exact (Hzero s E) | ].
  split; [ exact E | ].
  split; [ exact strip_leading_zeros_split | ].
  split; [ | exact Hzero ].
  intros r. split;
    [ apply strip_leading_zeros_empty | apply strip_leading_zeros_zeros ].
Qed.

(** The conversion of [000]. *)
Lemma attoToFIL_zero_witness :
  all_chars is_zero_digit "000" = true
  /\ attoToFIL "000" = 0%float
  /\ strip_leading_zeros "000" = EmptyString.
Proof.
  split; [ reflexivity | ].
  destruct (attoToFIL_zero "000" eq_refl) as (Hv & Hs & _).
  split; [ exact Hv | exact Hs ].
Defined.

(** * Further properties *)

(** ** The order of numbers *)

Section KeyOrder.

Local Open Scope Z_scope.

Lemma compare_cont_Eq m1 m2 : Pos.compare_cont Eq m1 m2 = (m1 ?= m2)%positive.
Proof. reflexivity. Qed.

Lemma SFleb_key x y :
  x <> S754_nan -> y <> S754_nan ->
  (SFleb x y = true <-> key_le (SF_key x) (SF_key y)).
Proof.
  intros Hx Hy. unfold SFleb, SFcompare, key_le.
  destruct x as [sx | sx | | sx mx ex]; try congruence;
  destruct y as [sy | sy | | sy my ey]; try congruence;
  try destruct sx; try destruct sy; simpl;
  try rewrite compare_cont_Eq;
  try (destruct (Z.compare_spec ex ey) as [He | He | He]);
  try (destruct (Pos.compare_spec mx my) as [Hm | Hm | Hm]); simpl;
  split; intros H; try discriminate; try reflexivity; try lia; try (injection Hm as ->); try lia.
Qed.

Lemma SFltb_key x y :
  x <> S754_nan -> y <> S754_nan ->
  (SFltb x y = true <-> key_lt (SF_key x) (SF_key y)).
Proof.
  intros Hx Hy. unfold SFltb, SFcompare, key_lt.
  destruct x as [sx | sx | | sx mx ex]; try congruence;
  destruct y as [sy | sy | | sy my ey]; try congruence;
  try destruct sx; try destruct sy; simpl;
  try rewrite compare_cont_Eq;
  try (destruct (Z.compare_spec ex ey) as [He | He | He]);
  try (destruct (Pos.compare_spec mx my) as [Hm | Hm | Hm]); simpl;
  split; intros H; try discriminate; try reflexivity; try lia; try (injection Hm as ->); try lia.
Qed.

Lemma key_lt_le_total a b : ~ key_lt a b -> key_le b a.
Proof. unfold key_lt, key_le. lia. Qed.

Lemma key_le_lt_trans a b c : key_le a b -> key_lt b c -> key_le a c.
Proof. unfold key_lt, key_le. lia. Qed.

Lemma key_le_refl a : key_le a a.
Proof. unfold key_le. lia. Qed.

End KeyOrder.

Lemma not_nan_SF x : is_nan x = false -> Prim2SF x <> S754_nan.
Proof.
  intros H E. apply is_nan_spec in E. congruence.
Qed.

Lemma finite_not_nan x : isFinite x = true -> is_nan x = false.
Proof.
  unfold isFinite, is_finite. rewrite negb_true_iff, orb_false_iff. tauto.
Qed.

Lemma le_refl_number x : is_nan x = false -> le x x = true.
Proof.
  intros H. apply not_nan_SF in H. unfold le. rewrite leb_spec.
  apply SFleb_key; auto. apply key_le_refl.
Qed.

Lemma not_lt_le x y :
  is_nan x = false -> is_nan y = false -> lt x y = false -> le y x = true.
Proof.
  intros Hx Hy H. apply not_nan_SF in Hx, Hy. unfold le, lt in *.
  rewrite leb_spec. rewrite ltb_spec in H.
  apply SFleb_key; auto. apply key_lt_le_total.
  intros K. apply SFltb_key in K; auto. congruence.
Qed.

Lemma le_lt_trans x y z :
  is_nan x = false -> is_nan y = false -> is_nan z = false ->
  le x y = true -> lt y z = true -> le x z = true.
Proof.
  intros Hx Hy Hz H1 H2. apply not_nan_SF in Hx, Hy, Hz. unfold le, lt in *.
  rewrite leb_spec in *. rewrite ltb_spec in H2.
  apply SFleb_key; auto.
  apply key_le_lt_trans with (SF_key (Prim2SF y)).
  - now apply SFleb_key.
  - now apply SFltb_key.
Qed.

Lemma lt_le_trans x y z :
  is_nan x = false -> is_nan y = false -> is_nan z = false ->
  lt x y = true -> le y z = true -> le x z = true.
Proof.
  intros Hx Hy Hz H1 H2. apply not_nan_SF in Hx, Hy, Hz. unfold le, lt in *.
  rewrite leb_spec in *. rewrite ltb_spec in H1.
  apply SFleb_key; auto.
  apply SFltb_key in H1; auto. apply SFleb_key in H2; auto.
  unfold key_le, key_lt in *. lia.
Qed.

Lemma finite_above_neg_infinity x :
  isFinite x = true -> lt neg_infinity x = true.
Proof.
  intros H. apply is_finite_spec in H. unfold lt. rewrite ltb_spec.
  change (Prim2SF neg_infinity) with (S754_infinity true).
  destruct H as [s | s m e]; reflexivity.
Qed.

Lemma finite_below_infinity x :
  isFinite x = true -> lt x infinity = true.
Proof.
  intros H. apply is_finite_spec in H. unfold lt. rewrite ltb_spec.
  change (Prim2SF infinity) with (S754_infinity false).
  destruct H as [s | s m e]; reflexivity.
Qed.


(** ** Windowed extremes *)

Lemma fold_left_pointwise {A B} (f g : A -> B -> A) (l : list B) :
  (forall a b, f a b = g a b) ->
  forall a, fold_left f l a = fold_left g l a.
Proof.
  intros H. induction l as [| b l IH]; intros a; simpl; [ reflexivity | ].
  rewrite H. apply IH.
Qed.

Lemma minMaxSinceMs_fold now buf ms :
  buf <> [] ->
  minMaxSinceMs now buf ms
  = fold_left minmax_step (scanned now buf ms) (neg_infinity, infinity).
Proof.
  intros H. destruct buf as [| x buf]; [ congruence | ].
  unfold minMaxSinceMs, scanned.
  destruct (filter _ (x :: buf)); apply fold_left_pointwise;
    intros [hi lo] b; reflexivity.
Qed.

Lemma minmax_step_inv seen acc x :
  minmax_inv seen acc -> minmax_inv (seen ++ [x]) (minmax_step acc x).
Proof.
  intros Inv. destruct acc as [hi lo]. unfold minmax_step.
  change (gt (Sample.p x) hi) with (lt hi (Sample.p x)).
  destruct (isFinite (Sample.p x)) eqn:Fx.
  - pose proof (finite_not_nan _ Fx) as Nx.
    right. destruct Inv as [[Hnone E] | ((xh & Hh1 & Hh2 & Hh3) & (xl & Hl1 & Hl2 & Hl3) & Hb)].
    + injection E as -> ->.
      rewrite (finite_above_neg_infinity _ Fx), (finite_below_infinity _ Fx).
      simpl. split; [ | split ].
      * exists x. rewrite in_app_iff. simpl. auto.
      * exists x. rewrite in_app_iff. simpl. auto.
      * intros y Hy Fy. apply in_app_iff in Hy. destruct Hy as [Hy | [<- | []]].
        -- rewrite (Hnone y Hy) in Fy. discriminate.
        -- split; now apply le_refl_number.
    + simpl in Hh3, Hl3. subst hi lo.
      pose proof (finite_not_nan _ Hh2) as Nh. pose proof (finite_not_nan _ Hl2) as Nl.
      split; [ | split ].
      * destruct (lt (Sample.p xh) (Sample.p x)); simpl.
        -- exists x. rewrite in_app_iff. simpl. auto.
        -- exists xh. rewrite in_app_iff. auto.
      * destruct (lt (Sample.p x) (Sample.p xl)); simpl.
        -- exists x. rewrite in_app_iff. simpl. auto.
        -- exists xl. rewrite in_app_iff. auto.
      * intros y Hy Fy. pose proof (finite_not_nan _ Fy) as Ny.
        apply in_app_iff in Hy. simpl.
        destruct Hy as [Hy | [<- | []]].
        -- destruct (Hb y Hy Fy) as [B1 B2]. simpl in B1, B2. split.
           ++ destruct (lt (Sample.p x) (Sample.p xl)) eqn:L; [ | exact B1 ].
              now apply lt_le_trans with (Sample.p xl).
           ++ destruct (lt (Sample.p xh) (Sample.p x)) eqn:L; [ | exact B2 ].
              now apply le_lt_trans with (Sample.p xh).
        -- split.
           ++ destruct (lt (Sample.p x) (Sample.p xl)) eqn:L;
                [ now apply le_refl_number | now apply not_lt_le ].
           ++ destruct (lt (Sample.p xh) (Sample.p x)) eqn:L;
                [ now apply le_refl_number | now apply not_lt_le ].
  - destruct Inv as [[Hnone E] | (Hh & Hl & Hb)].
    + left. split; [ | exact E ].
      intros y Hy. apply in_app_iff in Hy. destruct Hy as [Hy | [<- | []]]; auto.
    + right. split; [ | split ].
      * destruct Hh as (xh & ? & ? & ?). exists xh. rewrite in_app_iff. auto.
      * destruct Hl as (xl & ? & ? & ?). exists xl. rewrite in_app_iff. auto.
      * intros y Hy Fy. apply in_app_iff in Hy. destruct Hy as [Hy | [<- | []]]; auto.
        congruence.
Qed.

Lemma minmax_fold_inv suf : forall seen acc,
  minmax_inv seen acc -> minmax_inv (seen ++ suf) (fold_left minmax_step suf acc).
Proof.
  induction suf as [| x suf IH]; intros seen acc Inv; simpl.
  - rewrite app_nil_r. exact Inv.
  - replace (seen ++ x :: suf) with ((seen ++ [x]) ++ suf)
      by (rewrite <- app_assoc; reflexivity).
    apply IH, minmax_step_inv, Inv.
Qed.

(** [minMaxSinceMs] is [(NaN, NaN)] on the empty buffer.  Otherwise it scans
    the samples of the window, or the whole buffer when the window is empty:
    when no scanned price is finite the result is [(-Infinity, Infinity)];
    when one is, [hi] and [lo] are finite prices of scanned samples and
    every finite scanned price lies between them. *)
Theorem minMaxSinceMs_bounds (now ms : number) (buf : list sample) :
  minMaxSinceMs now [] ms = (NaN, NaN)
  /\ (buf <> [] ->
      let arr := scanned now buf ms in
      let hi := fst (minMaxSinceMs now buf ms) in
      let lo := snd (minMaxSinceMs now buf ms) in
      ((forall x, In x arr -> isFinite (Sample.p x) = false) ->
       hi = neg_infinity /\ lo = infinity)
      /\ ((exists x, In x arr /\ isFinite (Sample.p x) = true) ->
          (exists x, In x arr /\ isFinite (Sample.p x) = true
                     /\ hi = Sample.p x)
          /\ (exists x, In x arr /\ isFinite (Sample.p x) = true
                        /\ lo = Sample.p x)
          /\ forall x, In x arr -> isFinite (Sample.p x) = true ->
                       le lo (Sample.p x) = true
                       /\ le (Sample.p x) hi = true)).
Proof.
  split; [ reflexivity | ].
  intros Hne. cbv zeta. rewrite (minMaxSinceMs_fold now buf ms Hne).
  assert (Inv0 : minmax_inv [] (neg_infinity, infinity)).
  { left. split; [ intros x [] | reflexivity ]. }
  pose proof (minmax_fold_inv (scanned now buf ms) [] _ Inv0) as Inv.
  simpl app in Inv.
  destruct Inv as [[Hnone E] | (Hh & Hl & Hb)].
  - rewrite E. split; [ auto | ].
    intros (x & Hx & Fx). rewrite (Hnone x Hx) in Fx. discriminate.
  - split; [ | auto ].
    intros Hnone. destruct Hh as (x & Hx & Fx & _).
    rewrite (Hnone x Hx) in Fx. discriminate.
Qed.

(** Three samples at 5, 7 and 3, all inside the window. *)
Lemma minMaxSinceMs_bounds_witness :
  let buf := [Sample.make 1%float 5%float; Sample.make 2%float 7%float;
              Sample.make 3%float 3%float] in
  buf <> []
  /\ le (snd (minMaxSinceMs 10%float buf 100%float)) 5%float = true
  /\ le 5%float (fst (minMaxSinceMs 10%float buf 100%float)) = true.
Proof.
  cbv zeta. split; [ discriminate | ].
  destruct (minMaxSinceMs_bounds 10%float 100%float
              [Sample.make 1%float 5%float; Sample.make 2%float 7%float;
               Sample.make 3%float 3%float]) as [_ H].
  destruct (H ltac:(discriminate)) as [_ H2].
  destruct H2 as (_ & _ & Hb).
  - exists (Sample.make 1%float 5%float). split; [ left | ]; reflexivity.
  - apply (Hb (Sample.make 1%float 5%float)); [ left | ]; reflexivity.
Defined.

(** ** One append *)

(** One [pushPrice] on any buffer: the result has [min cap (length + 1)]
    samples; under the capacity the sample is appended and nothing is
    dropped; at the capacity exactly the oldest sample is dropped. *)
Theorem pushPrice_step (cap : nat) (b : list sample) (t p : number) :
  length (pushPrice cap b t p) = Nat.min cap (length b + 1)
  /\ ((length b < cap)%nat ->
      pushPrice cap b t p = b ++ [Sample.make t p])
  /\ (length b = cap -> (0 < cap)%nat ->
      pushPrice cap b t p = tl b ++ [Sample.make t p]).
Proof.
  rewrite pushPrice_lastn. unfold lastn.
  rewrite length_skipn, length_app. simpl length.
  split; [ lia | split ].
  - intros H. replace (length b + 1 - cap)%nat with 0%nat by lia.
    reflexivity.
  - intros H Hpos. replace (length b + 1 - cap)%nat with 1%nat by lia.
    destruct b as [| x b]; [ simpl in H; lia | reflexivity ].
Qed.

(** A buffer of capacity 2 holding two samples: the older one leaves. *)
Lemma pushPrice_step_witness :
  length [Sample.make 1%float 5%float; Sample.make 2%float 6%float] = 2%nat
  /\ (0 < 2)%nat
  /\ pushPrice 2 [Sample.make 1%float 5%float; Sample.make 2%float 6%float]
       3%float 7%float
     = [Sample.make 2%float 6%float; Sample.make 3%float 7%float].
Proof.
  split; [ reflexivity | split; [ lia | ] ].
  apply (proj2 (proj2 (pushPrice_step 2
           [Sample.make 1%float 5%float; Sample.make 2%float 6%float]
           3%float 7%float))); [ reflexivity | lia ].
Defined.

(** ** A price that did not move *)

Lemma percent_self_zero (a : number) :
  isFinite a = true -> strict_eq a 0%float = false ->
  strict_eq (((a - a) / a) * 100)%float 0%float = true.
Proof.
  unfold isFinite, strict_eq. intros Hf Hz.
  destruct (finite_nonzero_spec a Hf Hz) as (s & m & e & Ea).
  rewrite FloatAxioms.eqb_spec, mul_spec, div_spec, sub_spec, Ea.
  change (Prim2SF 100) with (S754_finite false 7036874417766400 (-46)).
  change (Prim2SF 0) with (S754_zero false).
  unfold SF64sub, SFsub. rewrite Z.sub_diag.
  destruct s; reflexivity.
Qed.

(** When the reference sample and the last sample carry the same finite
    price other than zero (a single sample, or a price back at its starting
    point), [pctChangeSinceMs] is zero, not NaN. *)
Theorem pctChangeSinceMs_unchanged (now ms : number) (first : sample)
  (rest : list sample) (ref : sample) :
  reference_sample (now - ms)%float (first :: rest) ref ->
  Sample.p ref = Sample.p (List.last (first :: rest) first) ->
  isFinite (Sample.p ref) = true ->
  strict_eq (Sample.p ref) 0%float = false ->
  strict_eq (pctChangeSinceMs now (first :: rest) ms) 0%float = true.
Proof.
  intros Href Hsame Hf Hz.
  assert (E : first_since (now - ms)%float (first :: rest) first = ref).
  { symmetry. eapply reference_sample_unique; [ exact Href | ].
    apply first_since_reference. }
  unfold pctChangeSinceMs. rewrite E, <- Hsame, Hf, Hz. simpl.
  now apply percent_self_zero.
Qed.

(** A buffer of one sample at 4.2. *)
Lemma pctChangeSinceMs_unchanged_witness :
  reference_sample (10 - 5)%float [Sample.make 7%float 4.2%float]
    (Sample.make 7%float 4.2%float)
  /\ strict_eq (pctChangeSinceMs 10%float [Sample.make 7%float 4.2%float]
                  5%float) 0%float
     = true.
Proof.
  assert (H : reference_sample (10 - 5)%float [Sample.make 7%float 4.2%float]
                (Sample.make 7%float 4.2%float)).
  { left. exists 0%nat. split; [ reflexivity | split; [ reflexivity | ] ].
    intros j x Hj. lia. }
  split; [ exact H | ].
  apply (pctChangeSinceMs_unchanged 10%float 5%float
           (Sample.make 7%float 4.2%float) [] (Sample.make 7%float 4.2%float)
           H); reflexivity.
Defined.

(** ** Lots and position *)

Lemma normalizeLots_cons (l : lot_entry) (rest : list lot_entry) :
  exists kept, normalizeLots (l :: rest) = kept ++ normalizeLots rest
               /\ (length kept <= 1)%nat
               /\ Forall lot_valid kept.
Proof.
  simpl.
  destruct (isFinite (ToNumber (entry_price l))) eqn:Fp; simpl;
    [ | exists []; auto ].
  destruct (le (ToNumber (entry_price l)) 0%float) eqn:Lp;
    [ exists []; auto | ].
  destruct (is_nullish (entry_qty l)); simpl.
  - destruct (is_nullish (entry_usd l)); simpl; [ exists []; auto | ].
    destruct (isFinite (ToNumber (entry_usd l))) eqn:Fu; simpl;
      [ | exists []; auto ].
    destruct (le (ToNumber (entry_usd l)) 0%float) eqn:Lu;
      [ exists []; auto | ].
    eexists [_]. split; [ reflexivity | split; [ auto | ] ].
    constructor; [ | constructor ].
    unfold lot_valid. simpl. auto 10.
  - destruct (isFinite (ToNumber (entry_qty l))) eqn:Fq; simpl;
      [ | exists []; auto ].
    destruct (le (ToNumber (entry_qty l)) 0%float) eqn:Lq;
      [ exists []; auto | ].
    eexists [_]. split; [ reflexivity | split; [ auto | ] ].
    constructor; [ | constructor ].
    unfold lot_valid. simpl. auto 10.
Qed.

(** Whatever the configured entries, every lot [normalizeLots] returns has a
    finite positive price and a finite positive amount ([qty] given and
    [usd = qty * price], or [usd] given and [qty = usd / price]); no entry
    yields more than one lot. *)
Theorem normalizeLots_valid (lots : list lot_entry) :
  Forall lot_valid (normalizeLots lots)
  /\ (length (normalizeLots lots) <= length lots)%nat.
Proof.
  induction lots as [| l rest [IH1 IH2]]; [ split; [ constructor | auto ] | ].
  destruct (normalizeLots_cons l rest) as (kept & -> & Hlen & Hvalid).
  split.
  - apply Forall_app. split; assumption.
  - rewrite length_app. simpl. lia.
Qed.

(** Normalizing a list of entries in two parts gives the lots of the first
    part followed by the lots of the second: each entry is judged alone and
    the order is kept. *)
Theorem normalizeLots_app (a b : list lot_entry) :
  normalizeLots (a ++ b) = normalizeLots a ++ normalizeLots b.
Proof.
  induction a as [| l a IH]; [ reflexivity | ].
  simpl app. simpl normalizeLots at 1 2.
  destruct (negb (isFinite (ToNumber (entry_price l)))
            || le (ToNumber (entry_price l)) 0%float); [ exact IH | ].
  destruct (negb (is_nullish (entry_qty l))).
  - destruct (negb (isFinite (ToNumber (entry_qty l)))
              || le (ToNumber (entry_qty l)) 0%float); [ exact IH | ].
    simpl. rewrite IH. reflexivity.
  - destruct (negb (is_nullish (entry_usd l))); [ | exact IH ].
    destruct (negb (isFinite (ToNumber (entry_usd l)))
              || le (ToNumber (entry_usd l)) 0%float); [ exact IH | ].
    simpl. rewrite IH. reflexivity.
Qed.

(** An entry without [qty] (missing or [null]) and with a finite positive
    [usd] and price gives the lot [{qty: usd / price, usd, price}]. *)
Theorem normalizeLots_usd_entry (l : lot_entry) (rest : list lot_entry) :
  let price := ToNumber (entry_price l) in
  let usd := ToNumber (entry_usd l) in
  isFinite price = true -> le price 0%float = false ->
  is_nullish (entry_qty l) = true ->
  is_nullish (entry_usd l) = false ->
  isFinite usd = true -> le usd 0%float = false ->
  normalizeLots (l :: rest)
  = Lot.make (usd / price)%float usd price (or_else (entry_ts l) Null)
    :: normalizeLots rest.
Proof.
  cbv zeta. intros Fp Lp Nq Nu Fu Lu. simpl.
  rewrite Fp, Lp, Nq, Nu, Fu, Lu. reflexivity.
Qed.

(** The entry [{usd: 100, price: 4}]: 25 units. *)
Lemma normalizeLots_usd_entry_witness :
  isFinite 4%float = true
  /\ le 4%float 0%float = false
  /\ isFinite 100%float = true
  /\ normalizeLots [LotEntry (Num 4%float) Undefined (Num 100%float) Undefined]
     = [Lot.make 25%float 100%float 4%float Null].
Proof.
  repeat (split; [ reflexivity | ]).
  exact (normalizeLots_usd_entry
           (LotEntry (Num 4%float) Undefined (Num 100%float) Undefined) []
           eq_refl eq_refl eq_refl eq_refl eq_refl eq_refl).
Defined.

(** An entry is dropped, whatever its other fields, when its price is not a
    finite positive number, and when it has neither [qty] nor [usd]. *)
Theorem normalizeLots_dropped (l : lot_entry) (rest : list lot_entry) :
  isFinite (ToNumber (entry_price l)) = false
  \/ le (ToNumber (entry_price l)) 0%float = true
  \/ (is_nullish (entry_qty l) = true /\ is_nullish (entry_usd l) = true) ->
  normalizeLots (l :: rest) = normalizeLots rest.
Proof.
  intros [H | [H | [H1 H2]]]; simpl.
  - rewrite H. reflexivity.
  - rewrite H, orb_true_r. reflexivity.
  - rewrite H1, H2. simpl.
    destruct (negb (isFinite (ToNumber (entry_price l)))
              || le (ToNumber (entry_price l)) 0%float); reflexivity.
Qed.

(** The entries [{price: 0, usd: 5}] and [{price: 4}]. *)
Lemma normalizeLots_dropped_witness :
  le (ToNumber (Num 0%float)) 0%float = true
  /\ normalizeLots
       [LotEntry (Num 0%float) Undefined (Num 5%float) Undefined;
        LotEntry (Num 4%float) Undefined Undefined Undefined]
     = [].
Proof.
  split; [ reflexivity | ].
  rewrite (normalizeLots_dropped
             (LotEntry (Num 0%float) Undefined (Num 5%float) Undefined)
             [LotEntry (Num 4%float) Undefined Undefined Undefined]
             (or_intror (or_introl eq_refl))).
  exact (normalizeLots_dropped
           (LotEntry (Num 4%float) Undefined Undefined Undefined) []
           (or_intror (or_intror (conj eq_refl eq_refl)))).
Defined.

(** ** Quantity of the position *)

Lemma positive_gt_zero (c : number) :
  isFinite c = true -> le c 0%float = false -> gt c 0%float = true.
Proof.
  intros Hf Hle. unfold gt. fold (lt 0%float c).
  destruct (lt 0%float c) eqn:L; [ reflexivity | ].
  rewrite (not_lt_le 0%float c eq_refl (finite_not_nan c Hf) L) in Hle.
  discriminate.
Qed.

(** [cachedQty] is always NaN or a finite positive number, and the position
    the page shows follows it: before any refresh round succeeded the
    quantity is the sum of the lots; afterwards it is the cached on-chain
    quantity.  The invested amount and the count of lots never depend on
    it. *)
Theorem position_quantity_source (cfg : config) (cachedQty : number) :
  cache_reachable cfg cachedQty ->
  ((cachedQty = NaN
    /\ Position.qty (computePosition cfg cachedQty)
       = fold_left (fun a l => (a + Lot.qty l)%float)
           (normalizeLots (FIL_LOTS cfg)) 0%float)
   \/ (isFinite cachedQty = true /\ gt cachedQty 0%float = true
       /\ Position.qty (computePosition cfg cachedQty) = cachedQty))
  /\ Position.invested (computePosition cfg cachedQty)
     = fold_left (fun a l => (a + Lot.usd l)%float)
         (normalizeLots (FIL_LOTS cfg)) 0%float
  /\ Position.lotsCount (computePosition cfg cachedQty)
     = length (normalizeLots (FIL_LOTS cfg)).
Proof.
  intros Hreach.
  split; [ | split; reflexivity ].
  destruct (cache_reachable_valid cfg cachedQty Hreach) as [-> | [Hf Hle]].
  - left. split; reflexivity.
  - right. pose proof (positive_gt_zero cachedQty Hf Hle) as Hgt.
    split; [ exact Hf | split; [ exact Hgt | ] ].
    unfold computePosition. simpl. rewrite Hf, Hgt. reflexivity.
Qed.

(** The script's settings after a round that found 42. *)
Lemma position_quantity_source_witness :
  cache_reachable default_config 42%float
  /\ Position.invested (computePosition default_config 42%float) = 100%float
  /\ Position.lotsCount (computePosition default_config 42%float) = 1%nat.
Proof.
  assert (Hreach : cache_reachable default_config 42%float).
  { exact (cache_refreshed default_config (fun _ _ => 42%float) NaN
             (cache_initial default_config)). }
  split; [ exact Hreach | ].
  destruct (position_quantity_source default_config 42%float Hreach)
    as (_ & H1 & H2).
  split; [ rewrite H1 | rewrite H2 ]; reflexivity.
Defined.

(** A refresh round whose total is a finite positive number returns it and
    stores it, whatever the cache held. *)
Theorem fetchExodusQtyFIL_success (cfg : config)
  (balance : nat -> string -> number) (cachedQty : number) :
  round_unavailable cfg balance = false ->
  fetchExodusQtyFIL cfg balance cachedQty
  = (round_total cfg balance, round_total cfg balance)
  /\ isFinite (round_total cfg balance) = true
  /\ gt (round_total cfg balance) 0%float = true.
Proof.
  unfold round_unavailable, fetchExodusQtyFIL. intros H.
  apply orb_false_iff in H. destruct H as [H Hle].
  apply orb_false_iff in H. destruct H as [H Hfin].
  apply orb_false_iff in H. destruct H as [Huse Haddr].
  apply negb_false_iff in Hfin.
  rewrite Huse. destruct (addresses cfg) as [| a rest]; [ discriminate | ].
  rewrite Hfin, Hle. simpl.
  split; [ reflexivity | split; [ reflexivity | ] ].
  now apply positive_gt_zero.
Qed.

(** The script's settings and a lookup that finds 42. *)
Lemma fetchExodusQtyFIL_success_witness :
  round_unavailable default_config (fun _ _ => 42%float) = false
  /\ fetchExodusQtyFIL default_config (fun _ _ => 42%float) NaN
     = (42%float, 42%float).
Proof.
  split; [ reflexivity | ].
  exact (proj1 (fetchExodusQtyFIL_success default_config
                  (fun _ _ => 42%float) NaN eq_refl)).
Defined.

(** ** The page without data *)

(** While no finite price is known, every figure that needs the price shows
    the dash, the price is neutral, no target line is shown and [render]
    sends no alert and leaves [lastAlertTs] alone. *)
Theorem render_without_price (cfg : config) (now : number) (st : feed)
  (stats24 : number * number) (cachedQty lastAlertTs : number) :
  isFinite (lastPrice st) = false ->
  let pg := fst (render cfg now st stats24 cachedQty lastAlertTs) in
  price_text pg = Dash /\ price_class pg = COLOR_NEU
  /\ value_text pg = Dash /\ pnl_usd_text pg = Dash
  /\ pnl_pct_text pg = Dash /\ from_avg_text pg = Dash
  /\ tp_line pg = None /\ sl_line pg = None
  /\ snd (render cfg now st stats24 cachedQty lastAlertTs)
     = ([], lastAlertTs).
Proof.
  intros H. cbv zeta. unfold render, render_page. simpl.
  unfold pnlPct, pnlUSD, fromAvgPct, value_of, target_line.
  rewrite H, !andb_false_r. simpl.
  repeat split; reflexivity.
Qed.

(** The page of the script's settings before the first price. *)
Lemma render_without_price_witness :
  isFinite (lastPrice initial_feed) = false
  /\ snd (render default_config 7%float initial_feed (NaN, NaN) NaN 0%float)
     = ([], 0%float).
Proof.
  split; [ reflexivity | ].
  apply (render_without_price default_config 7%float initial_feed (NaN, NaN)
           NaN 0%float eq_refl).
Defined.

(** With no valid lot and no on-chain quantity the position is empty:
    quantity and cost are zero, and the average cost, the P&L percentage
    and the distance from the average show the dash, whatever the price. *)
Theorem render_without_position (cfg : config) (now : number) (st : feed)
  (stats24 : number * number) :
  normalizeLots (FIL_LOTS cfg) = [] ->
  let pg := render_page cfg now st stats24 NaN in
  lots_count pg = 0%nat
  /\ qty_text pg = Fixed 4 0%float /\ cost_text pg = Fixed 2 0%float
  /\ avg_text pg = Dash /\ pnl_pct_text pg = Dash
  /\ from_avg_text pg = Dash.
Proof.
  intros H. cbv zeta. unfold render_page, computePosition. simpl.
  unfold pnlPct, fromAvgPct. rewrite H. simpl.
  repeat split; reflexivity.
Qed.

(** Settings with an empty list of lots. *)
Lemma render_without_position_witness :
  let cfg := Config true [] "coinbase" [] true "" 2%float 3.5%float 60%float
               600 in
  normalizeLots (FIL_LOTS cfg) = []
  /\ avg_text (render_page cfg 7%float initial_feed (NaN, NaN) NaN) = Dash.
Proof.
  cbv zeta. split; [ reflexivity | ].
  apply (render_without_position
           (Config true [] "coinbase" [] true "" 2%float 3.5%float 60%float
              600)
           7%float initial_feed (NaN, NaN) eq_refl).
Defined.

(** ** 24h statistics *)




(** ** Alerts over time *)

Lemma maybeAlert_cases (cfg : config) (now lastAlertTs price : number) :
  maybeAlert cfg now lastAlertTs price = ([], lastAlertTs)
  \/ (exists e es, maybeAlert cfg now lastAlertTs price = (e :: es, now))
     /\ canAlert cfg now lastAlertTs = true.
Proof.
  unfold maybeAlert.
  destruct (ENABLE_ALERTS cfg); simpl; [ | left; reflexivity ].
  destruct (needsSL cfg price || needsTP cfg price); simpl;
    [ | left; reflexivity ].
  destruct (canAlert cfg now lastAlertTs); [ | left; reflexivity ].
  right. split; [ eauto | reflexivity ].
Qed.

(** Along any sequence of evaluations, whatever the prices and the clock,
    two consecutive alerts are at least the cooldown apart, and the first is
    at least the cooldown after the initial [lastAlertTs]. *)
Theorem alerts_spaced_by_cooldown (cfg : config)
  (ticks : list (number * number)) (lastAlertTs : number) :
  spaced cfg lastAlertTs (alert_fires cfg ticks lastAlertTs).
Proof.
  revert lastAlertTs.
  induction ticks as [| [now price] rest IH]; intros lastAlertTs;
    [ exact I | ].
  simpl.
  destruct (maybeAlert_cases cfg now lastAlertTs price)
    as [-> | [(e & es & ->) Hcan]]; simpl.
  - apply IH.
  - split; [ exact Hcan | apply IH ].
Qed.

(** A threshold set to NaN is switched off: with both at NaN no evaluation
    sends anything; with the stop-loss alone at NaN nothing sent is a
    stop-loss alert. *)
Theorem maybeAlert_nan_disables (cfg : config)
  (now lastAlertTs price : number) :
  is_nan (SL_PRICE cfg) = true ->
  (is_nan (TP_PRICE cfg) = true ->
   maybeAlert cfg now lastAlertTs price = ([], lastAlertTs))
  /\ forall e, In e (fst (maybeAlert cfg now lastAlertTs price)) ->
       match e with
       | Notify _ (HitTakeProfit _ _) | Post _ (HitTakeProfit _ _) => True
       | _ => False
       end.
Proof.
  intros HSL.
  assert (E : needsSL cfg price = false).
  { unfold needsSL, isFinite, is_finite. rewrite HSL. reflexivity. }
  unfold maybeAlert. rewrite E. split.
  - intros HTP.
    assert (E' : needsTP cfg price = false).
    { unfold needsTP, isFinite, is_finite. rewrite HTP. reflexivity. }
    rewrite E'. destruct (ENABLE_ALERTS cfg); reflexivity.
  - intros e. destruct (ENABLE_ALERTS cfg); simpl; [ | intros [] ].
    destruct (needsTP cfg price && canAlert cfg now lastAlertTs); simpl;
      [ | intros [] ].
    destruct (is_empty (ALERT_WEBHOOK cfg)); simpl.
    + intros [<- | []]. exact I.
    + intros [<- | [<- | []]]; exact I.
Qed.

(** Both thresholds at NaN, a price of 1 long after the last alert. *)
Lemma maybeAlert_nan_disables_witness :
  let cfg := Config true [] "coinbase" [] true "" NaN NaN 60%float 600 in
  is_nan (SL_PRICE cfg) = true
  /\ maybeAlert cfg 3600000%float 0%float 1%float = ([], 0%float).
Proof.
  cbv zeta. split; [ reflexivity | ].
  exact (proj1 (maybeAlert_nan_disables
                  (Config true [] "coinbase" [] true "" NaN NaN 60%float 600)
                  3600000%float 0%float 1%float eq_refl) eq_refl).
Defined.

(** ** The feed over time *)

Lemma last_lastn_snoc {A} (cap : nat) (b : list A) (x d : A) :
  (0 < cap)%nat -> List.last (lastn cap (b ++ [x])) d = x.
Proof.
  intros Hpos. unfold lastn. rewrite length_app. simpl length.
  rewrite skipn_app.
  replace (length b + 1 - cap - length b)%nat with 0%nat by lia.
  simpl skipn. apply last_last.
Qed.

Lemma on_px_bounded (cfg : config) (now : number) (px : option number)
  (st : feed) :
  (length (priceBuffer st) <= BUF_MAX_POINTS cfg)%nat ->
  (length (priceBuffer (on_px cfg now px st)) <= BUF_MAX_POINTS cfg)%nat.
Proof.
  intros H.
  destruct (on_px_cases cfg now px st) as [-> | (x & _ & _ & ->)];
    [ exact H | ].
  simpl. rewrite pushPrice_lastn. apply lastn_length.
Qed.

Lemma on_px_synced (cfg : config) (now : number) (px : option number)
  (st : feed) :
  (0 < BUF_MAX_POINTS cfg)%nat ->
  feed_synced st -> feed_synced (on_px cfg now px st).
Proof.
  intros Hpos H.
  destruct (on_px_cases cfg now px st) as [-> | (x & _ & _ & ->)];
    [ exact H | ].
  unfold feed_synced. simpl. rewrite pushPrice_lastn.
  rewrite last_lastn_snoc by exact Hpos. reflexivity.
Qed.

(** After any sequence of messages and polls the buffer holds at most
    [BUF_MAX_POINTS] samples. *)
Theorem feed_run_bounded (cfg : config) (evs : list feed_event) :
  (length (priceBuffer (feed_run cfg evs)) <= BUF_MAX_POINTS cfg)%nat.
Proof.
  unfold feed_run.
  assert (H : (length (priceBuffer initial_feed) <= BUF_MAX_POINTS cfg)%nat)
    by (simpl; lia).
  revert H. generalize initial_feed as st.
  induction evs as [| ev evs IH]; intros st H; simpl; [ exact H | ].
  apply IH. destruct ev; apply on_px_bounded, H.
Qed.

(** With a capacity that is not zero, after any sequence of messages and
    polls [lastPrice] is the price of the newest buffered sample: the two
    variables are always written together. *)
Theorem feed_run_synced (cfg : config) (evs : list feed_event) :
  (0 < BUF_MAX_POINTS cfg)%nat -> feed_synced (feed_run cfg evs).
Proof.
  intros Hpos. unfold feed_run.
  assert (H : feed_synced initial_feed) by reflexivity.
  revert H. generalize initial_feed as st.
  induction evs as [| ev evs IH]; intros st H; simpl; [ exact H | ].
  apply IH. destruct ev; now apply on_px_synced.
Qed.

(** Two tickers under the script's settings. *)
Lemma feed_run_synced_witness :
  (0 < BUF_MAX_POINTS default_config)%nat
  /\ feed_synced
       (feed_run default_config
          [CoinbaseMessage 1%float (ticker (Str "2.5"));
           CoinbaseMessage 2%float (ticker (Str "2.75"))]).
Proof.
  split; [ unfold default_config; simpl; lia | ].
  apply feed_run_synced. unfold default_config. simpl. lia.
Defined.

(** ** Messages and answers that carry no price *)

(** The Coinbase handler leaves the state alone on every message that is
    not an object, and on every object whose [type] is not the text
    [ticker], whose [product_id] is not the text [FIL-USD], or whose [price]
    is missing or falsy.  The Kraken handler leaves it alone on every
    message that is not an array and on every array shorter than two. *)
Theorem foreign_messages_ignored (cfg : config) (now : number) (st : feed) :
  (forall m, (forall fields, m <> Obj fields) ->
             coinbase_onmessage cfg now m st = st)
  /\ (forall fields,
        is_string (lookup "type" fields) "ticker" = false
        \/ is_string (lookup "product_id" fields) "FIL-USD" = false
        \/ ToBoolean (lookup "price" fields) = false ->
        coinbase_onmessage cfg now (Obj fields) st = st)
  /\ (forall m, (forall items, m <> Arr items) ->
                kraken_onmessage cfg now m st = st)
  /\ (forall items, (length items < 2)%nat ->
                    kraken_onmessage cfg now (Arr items) st = st).
Proof.
  unfold coinbase_onmessage, kraken_onmessage.
  split; [ | split; [ | split ] ].
  - intros m H. destruct m; try reflexivity. exfalso. eapply H. reflexivity.
  - intros fields H. unfold coinbase_px. simpl.
    destruct H as [H | [H | H]]; rewrite H; simpl;
      rewrite ?andb_false_r; reflexivity.
  - intros m H. destruct m; try reflexivity. exfalso. eapply H. reflexivity.
  - intros items H. unfold kraken_px.
    destruct items as [| a [| b items]]; [ reflexivity | reflexivity | ].
    simpl in H. lia.
Qed.

(** The message [{"type": "subscriptions"}] on the Coinbase socket. *)
Lemma foreign_messages_ignored_witness :
  is_string (lookup "type" [("type"%string, Str "subscriptions")]) "ticker"
  = false
  /\ coinbase_onmessage default_config 7%float
       (Obj [("type"%string, Str "subscriptions")])
       (Feed 3%float [Sample.make 1%float 3%float])
     = Feed 3%float [Sample.make 1%float 3%float].
Proof.
  split; [ reflexivity | ].
  apply (proj1 (proj2 (foreign_messages_ignored default_config 7%float
                         (Feed 3%float [Sample.make 1%float 3%float])))).
  left. reflexivity.
Defined.

Lemma unusable_NaN (r : response) : unusable r -> getJsonNum r = Some NaN.
Proof.
  intros [-> | (w & -> & H)]; simpl; [ reflexivity | rewrite H; reflexivity ].
Qed.



(** A request that rejects ends the round: no later provider is tried and
    the state is left as it was, whatever the later providers would have
    answered. *)
Theorem poll_rejection_ends_round (cfg : config) (now : number) (st : feed) :
  PRICE_SOURCE cfg = "coinbase"%string ->
  (forall k g, poll cfg now Rejected k g st = st)
  /\ (forall c g, unusable c -> poll cfg now c Rejected g st = st)
  /\ (forall c k, unusable c -> unusable k ->
                  poll cfg now c k Rejected st = st).
Proof.
  unfold poll, poll_px. intros ->. simpl String.eqb.
  split; [ | split ].
  - reflexivity.
  - intros c g Hc. rewrite (unusable_NaN c Hc). reflexivity.
  - intros c k Hc Hk.
    rewrite (unusable_NaN c Hc). simpl. rewrite (unusable_NaN k Hk).
    reflexivity.
Qed.

(** The Coinbase request rejects while Kraken would have answered 2.5. *)
Lemma poll_rejection_ends_round_witness :
  PRICE_SOURCE default_config = "coinbase"%string
  /\ poll default_config 7%float Rejected (Picked (Str "2.5")) NotOk
       initial_feed
     = initial_feed.
Proof.
  split; [ reflexivity | ].
  apply (proj1 (poll_rejection_ends_round default_config 7%float initial_feed
                  eq_refl)).
Defined.

(** ** Balance of one address *)

Section AddressBalanceFacts.

Variable NumberToString : number -> string.

Lemma silent_glif (r : reply) :
  silent r -> glif_balance NumberToString r = None.
Proof. intros [-> | ->]; reflexivity. Qed.

Lemma silent_filfox (r : reply) :
  silent r -> filfox_balance NumberToString r = None.
Proof. intros [-> | ->]; reflexivity. Qed.

Lemma glif_text (fields : list (string * value)) (s : string) :
  lookup "result" fields = Str s -> is_empty s = false ->
  glif_balance NumberToString (Body (Obj fields)) = Some (attoToFIL s).
Proof.
  intros E Hs. simpl. rewrite E. simpl. rewrite Hs. reflexivity.
Qed.

Lemma or_else_first (x y : value) : ToBoolean x = true -> or_else x y = x.
Proof. intros H. unfold or_else. rewrite H. reflexivity. Qed.

Lemma filfox_text (fields : list (string * value)) (s : string) :
  lookup "balance" fields = Str s -> is_empty s = false ->
  filfox_balance NumberToString (Body (Obj fields))
  = if all_digits s then Some (attoToFIL s)
    else if ends_FIL s then Some (StringToNumber (trim (remove_FIL s)))
    else if isFinite (StringToNumber s) then Some (StringToNumber s)
    else None.
Proof.
  intros E Hs.
  assert (HT : ToBoolean (Str s) = true) by (simpl; rewrite Hs; reflexivity).
  unfold filfox_balance. cbn [ToBoolean getField]. rewrite E.
  rewrite (or_else_first (Str s) _ HT), (or_else_first (Str s) _ HT).
  reflexivity.
Qed.

Lemma ends_FIL_suffix (d : string) : ends_FIL (d ++ " FIL") = true.
Proof.
  induction d as [| a d IH]; [ reflexivity | ].
  change (String a d ++ " FIL")%string with (String a (d ++ " FIL")).
  cbn [ends_FIL]. rewrite IH.
  destruct (d ++ " FIL")%string as [| b [| c [| e r]]];
    try reflexivity. apply orb_true_r.
Qed.

Lemma lit_not_F (a : ascii) : is_lit a = true -> is_F a = false.
Proof.
  intros H. unfold is_F.
  rewrite !(char_differs is_lit a) by (exact H || reflexivity). reflexivity.
Qed.

Lemma remove_FIL_suffix (d : string) :
  all_chars is_lit d = true -> remove_FIL (d ++ " FIL") = (d ++ " ")%string.
Proof.
  induction d as [| a d IH]; intros H; [ reflexivity | ].
  simpl in H. apply andb_true_iff in H. destruct H as [Ha Hd].
  change (String a d ++ " FIL")%string with (String a (d ++ " FIL")).
  cbn [remove_FIL]. rewrite (IH Hd), (lit_not_F a Ha). simpl.
  destruct d as [| b [| c d]]; reflexivity.
Qed.

Lemma trim_right_space (d : string) :
  all_chars not_space d = true -> trim_right (d ++ " ") = d.
Proof.
  induction d as [| a d IH]; intros H; [ reflexivity | ].
  simpl in H. apply andb_true_iff in H. destruct H as [Ha Hd].
  change (String a d ++ " ")%string with (String a (d ++ " ")).
  cbn [trim_right]. rewrite (IH Hd).
  unfold not_space in Ha. apply negb_true_iff in Ha. rewrite Ha.
  reflexivity.
Qed.

Lemma trim_space_suffix (d : string) :
  all_chars is_lit d = true -> is_empty d = false ->
  trim (d ++ " ") = d.
Proof.
  intros H Hne. destruct d as [| a d]; [ discriminate | ].
  assert (Hns : all_chars not_space (String a d) = true).
  { revert H. apply all_chars_impl, lit_not_space. }
  unfold trim.
  change (String a d ++ " ")%string with (String a (d ++ " ")).
  rewrite trim_left_id.
  - change (String a (d ++ " ")) with (String a d ++ " ")%string.
    now apply trim_right_space.
  - simpl in Hns. apply andb_true_iff in Hns. destruct Hns as [Hns _].
    now apply negb_true_iff in Hns.
Qed.

Lemma not_all_digits_suffix (d : string) : all_digits (d ++ " FIL") = false.
Proof.
  unfold all_digits. rewrite all_chars_app. simpl.
  rewrite andb_false_r, andb_false_r. reflexivity.
Qed.

(** When both GLIF requests and the Filfox request bring no body (each
    failed or answered a status that is not a success), the balance is
    NaN. *)
Theorem fetchFILAddressBalance_all_fail (glif1 glif2 filfox : reply) :
  silent glif1 -> silent glif2 -> silent filfox ->
  fetchFILAddressBalance NumberToString glif1 glif2 filfox = NaN.
Proof.
  intros H1 H2 H3. unfold fetchFILAddressBalance.
  rewrite (silent_glif glif1 H1), (silent_glif glif2 H2),
    (silent_filfox filfox H3).
  reflexivity.
Qed.

(** The providers are tried in order and the first answer is final: a
    first GLIF body whose [result] is a text [s] that is not empty gives
    [attoToFIL(s)] whatever the two other requests come to; the second GLIF
    endpoint is read only when the first brought no body, and then gives
    [attoToFIL(s)] whatever Filfox answers. *)
Theorem fetchFILAddressBalance_first_answer (fields : list (string * value))
  (s : string) :
  lookup "result" fields = Str s -> is_empty s = false ->
  (forall glif2 filfox,
     fetchFILAddressBalance NumberToString (Body (Obj fields)) glif2 filfox
     = attoToFIL s)
  /\ (forall glif1 filfox, silent glif1 ->
        fetchFILAddressBalance NumberToString glif1 (Body (Obj fields)) filfox
        = attoToFIL s).
Proof.
  intros E Hs. unfold fetchFILAddressBalance. split.
  - intros glif2 filfox. rewrite (glif_text fields s E Hs). reflexivity.
  - intros glif1 filfox H1.
    rewrite (silent_glif glif1 H1), (glif_text fields s E Hs). reflexivity.
Qed.

(** What Filfox's [balance] text is read as, once both GLIF requests
    brought no body: digits alone are attoFIL and go through [attoToFIL];
    a decimal number followed by a space and [FIL] is taken as it is, in
    FIL. *)
Theorem fetchFILAddressBalance_filfox_text (glif1 glif2 : reply)
  (fields : list (string * value)) (d : string) :
  silent glif1 -> silent glif2 ->
  is_empty d = false ->
  (all_chars is_digit d = true -> lookup "balance" fields = Str d ->
   fetchFILAddressBalance NumberToString glif1 glif2 (Body (Obj fields))
   = attoToFIL d)
  /\ (all_chars is_lit d = true ->
      lookup "balance" fields = Str (d ++ " FIL") ->
      fetchFILAddressBalance NumberToString glif1 glif2 (Body (Obj fields))
      = StringToNumber d).
Proof.
  intros H1 H2 Hne. unfold fetchFILAddressBalance.
  rewrite (silent_glif glif1 H1), (silent_glif glif2 H2).
  split.
  - intros Hd E. rewrite (filfox_text fields d E Hne).
    unfold all_digits. rewrite Hne, Hd. reflexivity.
  - intros Hd E.
    assert (Hne' : is_empty (d ++ " FIL") = false).
    { destruct d; [ discriminate | reflexivity ]. }
    rewrite (filfox_text fields _ E Hne').
    rewrite not_all_digits_suffix, ends_FIL_suffix, (remove_FIL_suffix d Hd),
      (trim_space_suffix d Hd Hne).
    reflexivity.
Qed.

(** A refresh round in which every request of every lookup brings no body
    returns the cached quantity and leaves the cache as it was. *)
Theorem fetchExodusQtyFIL_all_fail (cfg : config)
  (replies : nat -> string -> reply * reply * reply) (cachedQty : number) :
  (forall i a, silent (fst (fst (replies i a)))
               /\ silent (snd (fst (replies i a)))
               /\ silent (snd (replies i a))) ->
  cache_reachable cfg cachedQty ->
  fetchExodusQtyFIL cfg (balance_of NumberToString replies) cachedQty
  = (cachedQty, cachedQty).
Proof.
  intros Hfail Hreach.
  assert (Hnan : forall i a, balance_of NumberToString replies i a = NaN).
  { intros i a. unfold balance_of. destruct (Hfail i a) as (H1 & H2 & H3).
    destruct (replies i a) as [[g1 g2] f]. simpl in *.
    unfold fetchFILAddressBalance.
    rewrite (silent_glif g1 H1), (silent_glif g2 H2), (silent_filfox f H3).
    reflexivity. }
  assert (Hsum : forall addrs i total,
    sum_balances (balance_of NumberToString replies) i addrs total = total).
  { induction addrs as [| a addrs IH]; intros i total; simpl;
      [ reflexivity | ].
    rewrite Hnan. simpl. apply IH. }
  unfold fetchExodusQtyFIL, round_total.
  destruct (USE_EXODUS_BALANCE cfg) eqn:Euse; simpl.
  - destruct (addresses cfg) as [| a rest] eqn:Eaddr.
    + rewrite (cache_reachable_off cfg cachedQty (or_intror Eaddr) Hreach).
      reflexivity.
    + rewrite Hsum. simpl.
      rewrite (fallback_keeps cachedQty
                 (cache_reachable_valid cfg cachedQty Hreach)).
      reflexivity.
  - rewrite (cache_reachable_off cfg cachedQty (or_introl Euse) Hreach).
    reflexivity.
Qed.

End AddressBalanceFacts.

(** The readers of the [FIL] suffix and [String] on an array of texts. *)
Example FIL_suffix_samples :
  map ends_FIL ["12.5 FIL"; "3 fil"; "FIL"; "FILX"; "IL"; ""]%string
  = [true; true; true; false; false; false]
  /\ map remove_FIL ["12.5 FIL"; "aFILbFIL"; "fi"; "xfIly"]%string
     = ["12.5 "; "abFIL"; "fi"; "xy"]%string
  /\ ToString (fun _ => EmptyString) (Arr [Str "a"; Null; Arr [Str "b"; Str "c"]])
     = "a,,b,c"%string.
Proof. repeat split; reflexivity. Qed.

(** Three requests that failed. *)
Lemma fetchFILAddressBalance_all_fail_witness :
  silent Failed /\ silent StatusNotOk
  /\ fetchFILAddressBalance (fun _ => EmptyString) Failed StatusNotOk Failed
     = NaN.
Proof.
  split; [ left; reflexivity | split; [ right; reflexivity | ] ].
  apply fetchFILAddressBalance_all_fail;
    [ left | right | left ]; reflexivity.
Defined.

(** The first GLIF endpoint answers 1.5 FIL in attoFIL. *)
Lemma fetchFILAddressBalance_first_answer_witness :
  lookup "result" [("result"%string, Str "1500000000000000000")]
  = Str "1500000000000000000"
  /\ fetchFILAddressBalance (fun _ => EmptyString)
       (Body (Obj [("result"%string, Str "1500000000000000000")]))
       Failed Failed
     = attoToFIL "1500000000000000000".
Proof.
  split; [ reflexivity | ].
  apply (proj1 (fetchFILAddressBalance_first_answer (fun _ => EmptyString)
                  [("result"%string, Str "1500000000000000000")]
                  "1500000000000000000" eq_refl eq_refl)).
Defined.

(** GLIF is down and Filfox answers the text [12.5 FIL]. *)
Lemma fetchFILAddressBalance_filfox_text_witness :
  silent Failed
  /\ all_chars is_lit "12.5" = true
  /\ fetchFILAddressBalance (fun _ => EmptyString) Failed Failed
       (Body (Obj [("balance"%string, Str "12.5 FIL")]))
     = StringToNumber "12.5".
Proof.
  split; [ left; reflexivity | split; [ reflexivity | ] ].
  apply (proj2 (fetchFILAddressBalance_filfox_text (fun _ => EmptyString)
                  Failed Failed [("balance"%string, Str "12.5 FIL")] "12.5"
                  (or_introl eq_refl) (or_introl eq_refl) eq_refl));
    reflexivity.
Defined.

(** The script's settings, a cache at 42 and a round in which every request
    fails. *)
Lemma fetchExodusQtyFIL_all_fail_witness :
  cache_reachable default_config 42%float
  /\ fetchExodusQtyFIL default_config
       (balance_of (fun _ => EmptyString)
          (fun _ _ => (Failed, Failed, Failed)))
       42%float
     = (42%float, 42%float).
Proof.
  assert (Hreach : cache_reachable default_config 42%float).
  { exact (cache_refreshed default_config (fun _ _ => 42%float) NaN
             (cache_initial default_config)). }
  split; [ exact Hreach | ].
  apply fetchExodusQtyFIL_all_fail; [ | exact Hreach ].
  intros i a. repeat split; left; reflexivity.
Defined.
